(** * Light IR Receiver: a shallow embedding of lightIRRecv.cpp

    The library decodes infrared remote-control frames inside a pin-change
    interrupt handler and exposes a pressed / held / released state machine
    through [lirrGetEvents].  This file embeds

    - the settings structs of lightIRRecv.h ([PF.t], [BP.t]),
    - the globals of lightIRRecv.cpp together with the function-local
      statics of the two decoders and of the ISR ([state]),
    - [pulseFractionDecode], [biPhaseDecode], the ISR and [lirrGetEvents],

    and proves properties of them.  [micros()] is an input: every function
    that reads the clock takes the value read as the argument [now]. *)

From Stdlib Require Import ZArith List Bool Lia.
Import ListNotations.
Local Open Scope Z_scope.

(* ------------------------------------------------------------------ *)
(** ** Machine arithmetic *)

(** [uint32_t] values are integers in [0, 2^32). *)
Definition wrap32 (x : Z) : Z := x mod 2 ^ 32.

Definition u32 (x : Z) : Prop := 0 <= x < 2 ^ 32.

(** [a - b] on [uint32_t]: the subtraction wraps around. *)
Definition sub32 (a b : Z) : Z := wrap32 (a - b).

(** [1UL << n] for a [uint8_t] count [n].  [unsigned long] has 32 bits on
    the AVR.  For [n >= 32] C++ leaves the shift undefined; avr-gcc shifts in
    a loop, one position per iteration, which leaves 0, and that is the value
    taken here. *)
Definition shl32 (n : Z) : Z := wrap32 (Z.shiftl 1 n).

(* ------------------------------------------------------------------ *)
(** ** Settings structs (lightIRRecv.h) *)

Module PF.
(** [lirrPulseFractionSettings_t] *)
Record t := Build {
  bits : Z;             (* uint8_t  *)
  distanceMode : bool;
  startMin : Z;         (* uint16_t *)
  startMax : Z;
  bitMin : Z;
  bitSep : Z;
  bitMax : Z
}.
End PF.

Module BP.
(** [lirrBiPhaseSettings_t]; a [uint16_t x[2]] is the pair (x[0], x[1]). *)
Record t := Build {
  bits : Z;             (* uint8_t *)
  aceRising : bool;
  bitTime : Z * Z;
  startTime : Z * Z;
  toggleTime : Z * Z;
  togglePos : Z         (* uint8_t *)
}.
End BP.

Definition PROTOCOL_NEC := PF.Build 32 true 13300 13700 925 1687 2450.
Definition PROTOCOL_JVC := PF.Build 16 true 12424 12824 852 1578 2304.
Definition PROTOCOL_RCA := PF.Build 24 true 7800 8200 1300 2000 2700.
Definition PROTOCOL_SHARP := PF.Build 15 true 0 0 800 1500 2200.
Definition PROTOCOL_SAMSUNG := PF.Build 32 true 8760 9160 920 1680 2440.
Definition PROTOCOL_SIRC := PF.Build 12 false 2200 2600 400 900 1400.
Definition PROTOCOL_RC5 :=
  BP.Build 13 true (1578, 1978) (1578, 1978) (1578, 1978) 11.
Definition PROTOCOL_RC6_MODE0 :=
  BP.Build 21 false (688, 1088) (3796, 4196) (1132, 1532) 16.

Definition repeatInt : Z := 100000.

(** The button states are [uint8_t] constants 0..3 in the header. *)
Inductive button := BUTTON_NONE | BUTTON_PRESSED | BUTTON_HELD | BUTTON_RELEASED.

Definition button_eqb (a b : button) : bool :=
  match a, b with
  | BUTTON_NONE, BUTTON_NONE | BUTTON_PRESSED, BUTTON_PRESSED
  | BUTTON_HELD, BUTTON_HELD | BUTTON_RELEASED, BUTTON_RELEASED => true
  | _, _ => false
  end.

Record remoteEvents_t := Events {
  pressTime : Z;
  curTime : Z;
  buttonCode : Z;
  buttonState : button;
  toggleState : bool
}.

(* ------------------------------------------------------------------ *)
(** ** Global data (lightIRRecv.cpp) *)

(** What the bi-phase decoder's static pointer [bitTime] points to: one of
    the three arrays of the settings struct, or nothing before the first
    frame has started. *)
Inductive bitTimePtr := PtrNull | PtrBitTime | PtrStartTime | PtrToggleTime.

Record state := State {
  referenceTime : Z;
  incomingCode : Z;
  remoteEvents : remoteEvents_t;
  pfBitsRemaining : Z;     (* static uint8_t in pulseFractionDecode *)
  bpBitsRemaining : Z;     (* static uint8_t in biPhaseDecode *)
  bpBitTime : bitTimePtr;  (* static const uint16_t * in biPhaseDecode *)
  isrPinState : bool       (* static bool in the ISR *)
}.

Definition initialState : state :=
  State 0 0 (Events 0 0 0 BUTTON_NONE false) 0 0 PtrNull false.

(** The active decoder: [pDecodeFunction] with the settings pointer that
    [lirrBegin] stored next to it. *)
Inductive protocol :=
| PulseFraction (s : PF.t)
| BiPhase (s : BP.t).

(* Field updates. *)
Definition setReferenceTime (v : Z) (g : state) : state :=
  State v (incomingCode g) (remoteEvents g) (pfBitsRemaining g)
        (bpBitsRemaining g) (bpBitTime g) (isrPinState g).
Definition setIncomingCode (v : Z) (g : state) : state :=
  State (referenceTime g) v (remoteEvents g) (pfBitsRemaining g)
        (bpBitsRemaining g) (bpBitTime g) (isrPinState g).
Definition setRemoteEvents (v : remoteEvents_t) (g : state) : state :=
  State (referenceTime g) (incomingCode g) v (pfBitsRemaining g)
        (bpBitsRemaining g) (bpBitTime g) (isrPinState g).
Definition setPfBitsRemaining (v : Z) (g : state) : state :=
  State (referenceTime g) (incomingCode g) (remoteEvents g) v
        (bpBitsRemaining g) (bpBitTime g) (isrPinState g).
Definition setBpBitsRemaining (v : Z) (g : state) : state :=
  State (referenceTime g) (incomingCode g) (remoteEvents g)
        (pfBitsRemaining g) v (bpBitTime g) (isrPinState g).
Definition setBpBitTime (v : bitTimePtr) (g : state) : state :=
  State (referenceTime g) (incomingCode g) (remoteEvents g)
        (pfBitsRemaining g) (bpBitsRemaining g) v (isrPinState g).
Definition setIsrPinState (v : bool) (g : state) : state :=
  State (referenceTime g) (incomingCode g) (remoteEvents g)
        (pfBitsRemaining g) (bpBitsRemaining g) (bpBitTime g) v.

(* ------------------------------------------------------------------ *)
(** ** The decoders *)

(** The block both decoders run when the last bit of a frame has arrived:
<<
    if (remoteEvents.buttonState == BUTTON_NONE) {
        remoteEvents.buttonCode = incomingCode;
        remoteEvents.pressTime = curTime;
        remoteEvents.toggleState = !remoteEvents.toggleState;
    }
>> *)
Definition publish (code now : Z) (ev : remoteEvents_t) : remoteEvents_t :=
  if button_eqb (buttonState ev) BUTTON_NONE
  then Events now (curTime ev) code BUTTON_NONE (negb (toggleState ev))
  else ev.

(** [case true:] of the inner switch of [pulseFractionDecode]: the start
    check.  It is entered when no frame is in progress and, by fall-through,
    after a frame has been aborted. *)
Definition pfStartCheck (s : PF.t) (measuredTime : Z) (g : state) : state :=
  if ((measuredTime <? PF.startMax s) && (measuredTime >? PF.startMin s))
     || (PF.startMax s =? 0)
  then setIncomingCode 0 (setPfBitsRemaining (PF.bits s) g)
  else g.

Definition pulseFractionDecode (s : PF.t) (pinState : bool) (now : Z)
    (g : state) : state :=
  if Bool.eqb pinState (PF.distanceMode s) then
    let curTime := now in
    let measuredTime := sub32 curTime (referenceTime g) in
    let g := setReferenceTime curTime g in
    if pfBitsRemaining g =? 0 then pfStartCheck s measuredTime g
    else if (measuredTime >? PF.bitMin s) && (measuredTime <? PF.bitMax s) then
      let bitsRemaining := pfBitsRemaining g - 1 in
      let g := setPfBitsRemaining bitsRemaining g in
      let g := if measuredTime >? PF.bitSep s
               then setIncomingCode (Z.lor (incomingCode g) (shl32 bitsRemaining)) g
               else g in
      if bitsRemaining =? 0
      then setRemoteEvents (publish (incomingCode g) curTime (remoteEvents g)) g
      else g
    else pfStartCheck s measuredTime (setPfBitsRemaining 0 g)
  else
    if negb (PF.distanceMode s) then setReferenceTime now g else g.

(** The array [bitTime] points to.  The null pointer is never read: the
    pointer is set whenever a frame starts (see [bpInv] below). *)
Definition deref (s : BP.t) (p : bitTimePtr) : Z * Z :=
  match p with
  | PtrNull => (0, 0)
  | PtrBitTime => BP.bitTime s
  | PtrStartTime => BP.startTime s
  | PtrToggleTime => BP.toggleTime s
  end.

(** [case true:] of the switch of [biPhaseDecode]: wait for a rising edge. *)
Definition bpStartCheck (s : BP.t) (pinState : bool) (curTime : Z)
    (g : state) : state :=
  if pinState
  then setReferenceTime curTime
         (setBpBitTime PtrStartTime
            (setIncomingCode 0 (setBpBitsRemaining (BP.bits s) g)))
  else g.

Definition biPhaseDecode (s : BP.t) (pinState : bool) (now : Z)
    (g : state) : state :=
  let curTime := now in
  if bpBitsRemaining g =? 0 then bpStartCheck s pinState curTime g
  else
    let measuredTime := sub32 curTime (referenceTime g) in
    if measuredTime <? snd (deref s (bpBitTime g)) then
      if measuredTime >? fst (deref s (bpBitTime g)) then
        let g := setReferenceTime curTime g in
        let bitsRemaining := bpBitsRemaining g - 1 in
        let g := setBpBitsRemaining bitsRemaining g in
        let g := if Bool.eqb pinState (BP.aceRising s)
                 then if negb (bitsRemaining =? BP.togglePos s)
                      then setIncomingCode
                             (wrap32 (incomingCode g + shl32 bitsRemaining)) g
                      else g
                 else g in
        if bitsRemaining =? 0
        then setRemoteEvents (publish (incomingCode g) curTime (remoteEvents g)) g
        else if negb (bitsRemaining =? BP.togglePos s + 1)
                && negb (bitsRemaining =? BP.togglePos s)
        then setBpBitTime PtrBitTime g
        else setBpBitTime PtrToggleTime g
      else g
    else bpStartCheck s pinState curTime (setBpBitsRemaining 0 g).

Definition decode (p : protocol) (pinState : bool) (now : Z) (g : state)
    : state :=
  match p with
  | PulseFraction s => pulseFractionDecode s pinState now g
  | BiPhase s => biPhaseDecode s pinState now g
  end.

(** [ISR(PCINT2_vect)]: every pin change flips the handler's own notion of
    the pin level and calls the decoder with it. *)
Definition ISR (p : protocol) (now : Z) (g : state) : state :=
  let pinState := negb (isrPinState g) in
  decode p pinState now (setIsrPinState pinState g).

(* ------------------------------------------------------------------ *)
(** ** The poll *)

(** [case BUTTON_NONE:] of [lirrGetEvents], also reached from
    [BUTTON_RELEASED] by fall-through. *)
Definition fetchCode (ev : remoteEvents_t) : remoteEvents_t :=
  if negb (buttonCode ev =? 0)
  then Events (pressTime ev) (curTime ev) (buttonCode ev) BUTTON_PRESSED
              (toggleState ev)
  else ev.

Definition lirrGetEvents (now : Z) (g : state) : remoteEvents_t * state :=
  let lastSignalTime := referenceTime g in
  let ev := remoteEvents g in
  let ev := Events (pressTime ev) now (buttonCode ev) (buttonState ev)
                   (toggleState ev) in
  let ev :=
    match buttonState ev with
    | BUTTON_PRESSED =>
        Events (pressTime ev) (curTime ev) (buttonCode ev) BUTTON_HELD
               (toggleState ev)
    | BUTTON_HELD =>
        if sub32 (curTime ev) lastSignalTime >? repeatInt
        then Events (pressTime ev) (curTime ev) (buttonCode ev)
                    BUTTON_RELEASED (toggleState ev)
        else ev
    | BUTTON_RELEASED =>
        fetchCode (Events (pressTime ev) (curTime ev) 0 BUTTON_NONE
                          (toggleState ev))
    | BUTTON_NONE => fetchCode ev
    end in
  (ev, setRemoteEvents ev g).

(** The state after a poll, and the [buttonState] the poll returned. *)
Definition pollState (now : Z) (g : state) : state := snd (lirrGetEvents now g).
Definition pollResult (now : Z) (g : state) : button :=
  buttonState (fst (lirrGetEvents now g)).

(* ------------------------------------------------------------------ *)
(** ** Running the handlers over edge sequences *)

(** An edge as a decoder sees it: the level passed in and the clock value. *)
Definition edge : Type := bool * Z.

Definition pfRun (s : PF.t) (edges : list edge) (g : state) : state :=
  fold_left (fun g e => pulseFractionDecode s (fst e) (snd e) g) edges g.

Definition bpRun (s : BP.t) (edges : list edge) (g : state) : state :=
  fold_left (fun g e => biPhaseDecode s (fst e) (snd e) g) edges g.

(** The states right after each measuring edge (an edge whose level equals
    [distanceMode]) of a pulse-fraction run. *)
Fixpoint pfTrace (s : PF.t) (edges : list edge) (g : state) : list state :=
  match edges with
  | [] => []
  | (p, t) :: r =>
      let g' := pulseFractionDecode s p t g in
      if Bool.eqb p (PF.distanceMode s) then g' :: pfTrace s r g'
      else pfTrace s r g'
  end.

(** The intervals the measuring edges of [edges] conclude, when the
    reference time is [ref] before the first edge.  In distance mode an
    interval runs from one measuring edge to the next; in width mode it
    runs from the last edge of the other level. *)
Fixpoint pfIntervals (s : PF.t) (ref : Z) (edges : list edge) : list Z :=
  match edges with
  | [] => []
  | (p, t) :: r =>
      if Bool.eqb p (PF.distanceMode s)
      then sub32 t ref :: pfIntervals s t r
      else pfIntervals s (if PF.distanceMode s then ref else t) r
  end.

(** The two timing windows of the pulse-fraction decoder. *)
Definition pfStartOK (s : PF.t) (m : Z) : bool :=
  ((m <? PF.startMax s) && (m >? PF.startMin s)) || (PF.startMax s =? 0).

Definition pfInBounds (s : PF.t) (m : Z) : bool :=
  (m >? PF.bitMin s) && (m <? PF.bitMax s).

(** Most-significant-bit-first assembly of a bit pattern: the first bit
    received ends up in the highest position. *)
Definition msbFirst (bs : list bool) : Z :=
  fold_left (fun acc b => 2 * acc + Z.b2z b) bs 0.

(** The bit pattern a list of bit intervals stands for. *)
Definition pfPattern (s : PF.t) (ivs : list Z) : list bool :=
  map (fun m => m >? PF.bitSep s) ivs.

(** Events of a session: pin changes, served by the ISR, and polls. *)
Inductive event :=
| Edge (now : Z)
| Poll (now : Z).

Definition step (p : protocol) (e : event) (g : state) : state :=
  match e with
  | Edge now => ISR p now g
  | Poll now => pollState now g
  end.

Definition run (p : protocol) (tr : list event) (g : state) : state :=
  fold_left (fun g e => step p e g) tr g.

(** The [buttonState] values returned by successive polls at [times]. *)
Fixpoint pollResults (times : list Z) (g : state) : list button :=
  match times with
  | [] => []
  | t :: r => pollResult t g :: pollResults r (pollState t g)
  end.

(* ------------------------------------------------------------------ *)
(** ** What one measured interval does to the working state *)

(** The working state of the pulse-fraction decoder: bits remaining and
    accumulator. *)
Definition pfView (g : state) : Z * Z := (pfBitsRemaining g, incomingCode g).

(** The effect of a measuring edge that concludes interval [m], as the
    step lemmas above give it. *)
Definition pfViewStep (s : PF.t) (m : Z) (v : Z * Z) : Z * Z :=
  let (n, a) := v in
  if (n =? 0) || negb (pfInBounds s m)
  then if pfStartOK s m then (PF.bits s, 0) else (0, a)
  else (n - 1, if m >? PF.bitSep s then Z.lor a (shl32 (n - 1)) else a).

(** The interval [m] delivers the last bit of a frame with [n] bits left. *)
Definition pfCompletes (s : PF.t) (m n : Z) : bool :=
  negb (n =? 0) && pfInBounds s m && (n - 1 =? 0).

(* ------------------------------------------------------------------ *)
(** ** The four-bit scenario *)

(** bits=4, distanceMode=true, startMin=0, startMax=0, bitMin=400,
    bitSep=700, bitMax=1200 (the struct lists bitSep before bitMax). *)
Definition scenarioSettings : PF.t := PF.Build 4 true 0 0 400 700 1200.

Definition scenarioIntervals : list Z := [800; 800; 300; 800; 900; 500; 1600].


(** The edges of the scenario as the ISR delivers them: the handler's pin
    state starts low, so the first edge is passed on as high.  The high
    edges conclude the intervals 800, 800, 300, 800, 900, 500, 1600. *)
Definition scenarioEdges : list edge :=
  [(true, 800); (false, 1000); (true, 1600); (false, 1700); (true, 1900);
   (false, 2000); (true, 2700); (false, 3000); (true, 3600); (false, 3800);
   (true, 4100); (false, 4500); (true, 5700)].

(** Synthetic edge timings for a width-coded frame: each pulse of width [w]
    is a high edge followed [w] microseconds later by a low edge, with
    [gap] microseconds between pulses; the clock wraps at 32 bits. *)
Fixpoint encodeWidth (t gap : Z) (ws : list Z) : list edge :=
  match ws with
  | [] => []
  | w :: r =>
      (true, wrap32 t) :: (false, wrap32 (t + w))
      :: encodeWidth (t + w + gap) gap r
  end.

(** A 12-bit SIRC frame 1000 0100 1001, sent shortly before the
    microsecond counter overflows. *)
Definition sircPulses : list Z :=
  [1200; 600; 600; 600; 600; 1200; 600; 600; 1200; 600; 600; 1200].
Definition sircEdges : list edge :=
  encodeWidth (2 ^ 32 - 5000) 600 (2400 :: sircPulses).

(** The timing window the bi-phase decoder currently applies, and where
    the elapsed time of an edge at [now] falls relative to it. *)
Definition bpWindow (s : BP.t) (g : state) : Z * Z := deref s (bpBitTime g).

Definition bpIsMid (s : BP.t) (now : Z) (g : state) : bool :=
  let m := sub32 now (referenceTime g) in
  (m <? snd (bpWindow s g)) && (m >? fst (bpWindow s g)).

Definition bpIsEarly (s : BP.t) (now : Z) (g : state) : bool :=
  let m := sub32 now (referenceTime g) in
  (m <? snd (bpWindow s g)) && negb (m >? fst (bpWindow s g)).

Definition bpIsLate (s : BP.t) (now : Z) (g : state) : bool :=
  negb (sub32 now (referenceTime g) <? snd (bpWindow s g)).

(** The window selected after a bit has been taken and [n] bits remain. *)
Definition bpNextPtr (s : BP.t) (n : Z) : bitTimePtr :=
  if (n =? BP.togglePos s + 1) || (n =? BP.togglePos s)
  then PtrToggleTime else PtrBitTime.

(** The call [decode p pinState now g] takes the last bit of a frame. *)
Definition completes (p : protocol) (pinState : bool) (now : Z) (g : state)
    : bool :=
  match p with
  | PulseFraction s =>
      Bool.eqb pinState (PF.distanceMode s)
      && pfCompletes s (sub32 now (referenceTime g)) (pfBitsRemaining g)
  | BiPhase s =>
      negb (bpBitsRemaining g =? 0) && bpIsMid s now g
      && (bpBitsRemaining g - 1 =? 0)
  end.

(* ------------------------------------------------------------------ *)
(** ** Counting over a session *)

Definition b2n (b : bool) : nat := if b then 1%nat else 0%nat.

(** The step from [g] to [g'] inverted the toggle flag. *)
Definition toggled (g g' : state) : bool :=
  negb (Bool.eqb (toggleState (remoteEvents g))
                 (toggleState (remoteEvents g'))).

(** The step from [g] to [g'] is a NONE -> PRESSED transition. *)
Definition pressed (g g' : state) : bool :=
  button_eqb (buttonState (remoteEvents g)) BUTTON_NONE
  && button_eqb (buttonState (remoteEvents g')) BUTTON_PRESSED.

(** The event [e] is an edge that completes a frame in state [g]. *)
Definition completesFrame (p : protocol) (e : event) (g : state) : bool :=
  match e with
  | Edge now => completes p (negb (isrPinState g)) now g
  | Poll _ => false
  end.

(** Number of toggle inversions and of NONE -> PRESSED transitions along
    a session. *)
Fixpoint toggleFlips (p : protocol) (tr : list event) (g : state) : nat :=
  match tr with
  | [] => 0
  | e :: r => b2n (toggled g (step p e g)) + toggleFlips p r (step p e g)
  end.

Fixpoint pressTransitions (p : protocol) (tr : list event) (g : state) : nat :=
  match tr with
  | [] => 0
  | e :: r => b2n (pressed g (step p e g)) + pressTransitions p r (step p e g)
  end.

(** A published code that no poll has picked up yet. *)
Definition pending (g : state) : bool :=
  button_eqb (buttonState (remoteEvents g)) BUTTON_NONE
  && negb (buttonCode (remoteEvents g) =? 0).

(** The event [e] completes a frame while the Event Record is in state
    NONE, so that the frame is published. *)
Definition publishes (p : protocol) (e : event) (g : state) : bool :=
  completesFrame p e g
  && button_eqb (buttonState (remoteEvents g)) BUTTON_NONE.

(** No publication of the session overwrites a code that no poll has
    picked up: every frame that is published finds buttonCode 0. *)
Fixpoint noOverwrite (p : protocol) (tr : list event) (g : state) : bool :=
  match tr with
  | [] => true
  | e :: r =>
      (negb (publishes p e g) || (buttonCode (remoteEvents g) =? 0))
      && noOverwrite p r (step p e g)
  end.

(** Number of publications of the code 0 along a session. *)
Fixpoint zeroPublications (p : protocol) (tr : list event) (g : state)
    : nat :=
  match tr with
  | [] => 0
  | e :: r =>
      b2n (publishes p e g
           && (buttonCode (remoteEvents (step p e g)) =? 0))
      + zeroPublications p r (step p e g)
  end.

(** The edge events of a list of edges, as the ISR receives them: only the
    clock value; the level is the handler's own. *)
Definition edgeEvents (edges : list edge) : list event :=
  map (fun e => Edge (snd e)) edges.

(** A SIRC remote holding a button: the frame of [sircPulses] is sent at
    1 ms and again 45 ms later; the application polls at 100 ms. *)
Definition heldSession : list event :=
  edgeEvents (encodeWidth 1000 600 (2400 :: sircPulses))
  ++ edgeEvents (encodeWidth 46000 600 (2400 :: sircPulses))
  ++ [Poll 100000].

(** Two presses of a SIRC remote, the first held long enough for a repeat
    frame: frame, poll (PRESSED), repeat frame, poll (HELD), polls after the
    silence (RELEASED, NONE), second press, poll (PRESSED). *)
Definition twoPresses : list event :=
  edgeEvents (encodeWidth 1000 600 (2400 :: sircPulses))
  ++ [Poll 30000]
  ++ edgeEvents (encodeWidth 46000 600 (2400 :: sircPulses))
  ++ [Poll 70000; Poll 200000; Poll 210000]
  ++ edgeEvents (encodeWidth 300000 600 (2400 :: sircPulses))
  ++ [Poll 330000].

(** The state after the isolated SIRC frame of [sircEdges], and poll times
    that all lie more than the repeat interval after its last edge. *)
Definition afterSircFrame : state := pfRun PROTOCOL_SIRC sircEdges initialState.
Definition latePolls : list Z := [200000; 300000; 400000; 500000].

(** A SIRC frame whose twelve bits are all 0. *)
Definition sircZeroEdges : list edge :=
  encodeWidth 1000 600 (2400 :: repeat 600 12).

(** That frame received from start-up, and a poll after it. *)
Definition zeroSession : list event := edgeEvents sircZeroEdges ++ [Poll 30000].

(* ------------------------------------------------------------------ *)
(** ** Bi-phase frames *)

(** What the bi-phase decoder keeps true of its accumulator and of the
    published code: the toggle position is clear, and so is every position
    still to be received. *)
Definition bpInv (s : BP.t) (g : state) : Prop :=
  Z.testbit (incomingCode g) (BP.togglePos s) = false /\
  Z.testbit (buttonCode (remoteEvents g)) (BP.togglePos s) = false /\
  forall k, k < bpBitsRemaining g -> Z.testbit (incomingCode g) k = false.

(** Synthetic RC5-style timings for a frame of [n] bits that all have a
    rising edge in the middle: a rising start edge, then per bit a falling
    edge after half a bit time and a rising edge after a full one. *)
Fixpoint encodeRising (t : Z) (n : nat) : list edge :=
  match n with
  | O => [(true, t)]
  | S n' => (true, t) :: (false, t + 889) :: encodeRising (t + 1778) n'
  end.

Definition rc5RisingEdges : list edge := encodeRising 5000 13.

(* ------------------------------------------------------------------ *)
(** ** Moving a session along the clock *)

(** The same instant on a clock that runs [k] microseconds ahead; the
    counter wraps at 32 bits. *)
Definition shiftTime (k x : Z) : Z := wrap32 (x + k).

Definition shiftEvents (k : Z) (ev : remoteEvents_t) : remoteEvents_t :=
  Events (shiftTime k (pressTime ev)) (shiftTime k (curTime ev))
         (buttonCode ev) (buttonState ev) (toggleState ev).

(** A state with every stored timestamp moved by [k]. *)
Definition shiftState (k : Z) (g : state) : state :=
  State (shiftTime k (referenceTime g)) (incomingCode g)
        (shiftEvents k (remoteEvents g)) (pfBitsRemaining g)
        (bpBitsRemaining g) (bpBitTime g) (isrPinState g).

(** One bit of a bi-phase frame as it arrives: the edges that come before
    the middle of the bit (at most the one at the bit boundary, in
    Manchester coding), and the mid-bit edge. *)
Definition bpSymbol : Type := (list edge * edge)%type.

Definition bpSymbolEdges (syms : list bpSymbol) : list edge :=
  flat_map (fun sym => fst sym ++ [snd sym]) syms.

(** The window in force while [n] bits of a frame remain: the start pair
    before the first bit, then the pair chosen by position. *)
Definition bpPtrAt (s : BP.t) (n : Z) : bitTimePtr :=
  if n =? BP.bits s then PtrStartTime else bpNextPtr s n.

(** The bits of a frame are well timed, the previous mid-bit (or start)
    edge being at [ref]: every edge before the middle of a bit comes below
    the upper and not above the lower bound of the window in force, the
    mid-bit edge strictly between the two. *)
Fixpoint bpFrameOK (s : BP.t) (ref : Z) (syms : list bpSymbol) : bool :=
  match syms with
  | [] => true
  | sym :: rest =>
      let w := deref s (bpPtrAt s (Z.of_nat (length syms))) in
      forallb (fun e => (sub32 (snd e) ref <? snd w)
                        && negb (sub32 (snd e) ref >? fst w)) (fst sym)
      && ((sub32 (snd (snd sym)) ref <? snd w)
          && (sub32 (snd (snd sym)) ref >? fst w))
      && bpFrameOK s (snd (snd sym)) rest
  end.

(** The bit pattern of a frame, first bit first: a bit is 1 when its
    mid-bit level equals [aceRising], except at the toggle position, which
    is left out of the code. *)
Fixpoint bpPattern (s : BP.t) (syms : list bpSymbol) : list bool :=
  match syms with
  | [] => []
  | sym :: rest =>
      (Bool.eqb (fst (snd sym)) (BP.aceRising s)
       && negb (Z.of_nat (length rest) =? BP.togglePos s))
      :: bpPattern s rest
  end.

(** The scenario cut after its third interval (800, 800, 300: a frame
    started, one bit taken, a violation that restarts the frame on the
    same edge), and then a frame with start interval 800 and the bit
    intervals 500, 500, 500, 800, that is the pattern 0001. *)
Definition violationPrefix : list edge :=
  [(true, 800); (false, 1000); (true, 1600); (false, 1700)].
Definition followingFrame : list edge :=
  [(false, 2000); (true, 2700); (false, 2800); (true, 3200); (false, 3300);
   (true, 3700); (false, 3800); (true, 4200); (false, 4300); (true, 5000)].

(** The bits of [encodeRising], bit by bit: a falling edge half a bit time
    after the previous mid-bit edge, then the rising mid-bit edge. *)
Fixpoint risingSymbols (t : Z) (n : nat) : list bpSymbol :=
  match n with
  | O => []
  | S n' => ([(false, t + 889)], (true, t + 1778))
            :: risingSymbols (t + 1778) n'
  end.

(* ------------------------------------------------------------------ *)
(** ** Sessions of either protocol *)

(** The frame length of the active protocol and the bits-remaining counter
    of its decoder. *)
Definition protocolBits (p : protocol) : Z :=
  match p with
  | PulseFraction s => PF.bits s
  | BiPhase s => BP.bits s
  end.

Definition bitsRemaining (p : protocol) (g : state) : Z :=
  match p with
  | PulseFraction _ => pfBitsRemaining g
  | BiPhase _ => bpBitsRemaining g
  end.

(** Every bit set in [x] lies at a position from [lo] up, below [bits] and
    below the accumulator width. *)
Definition bitsWithin (bits lo x : Z) : Prop :=
  forall k, Z.testbit x k = true -> lo <= k /\ k < bits /\ k < 32.

(** What a session keeps true from the initial state on. *)
Definition sessionInv (p : protocol) (g : state) : Prop :=
  0 <= bitsRemaining p g <= protocolBits p /\
  bitsWithin (protocolBits p) (bitsRemaining p g) (incomingCode g) /\
  bitsWithin (protocolBits p) 0 (buttonCode (remoteEvents g)) /\
  match p with
  | PulseFraction _ => True
  | BiPhase _ => bpBitsRemaining g = 0 \/ bpBitTime g <> PtrNull
  end.

(** Decoder calls on a list of edges, for either protocol. *)
Definition decodeRun (p : protocol) (edges : list edge) (g : state) : state :=
  fold_left (fun g e => decode p (fst e) (snd e) g) edges g.

(** The edges the ISR hands to the decoder for pin changes at [times],
    when its own pin state is [b] before the first: levels alternate,
    starting with the opposite of [b], whatever the pin really does. *)
Fixpoint isrEdges (b : bool) (times : list Z) : list edge :=
  match times with
  | [] => []
  | t :: r => (negb b, t) :: isrEdges (negb b) r
  end.

(** The ISR's pin state after [n] pin changes. *)
Definition isrPinAfter (b : bool) (n : nat) : bool :=
  if Nat.odd n then negb b else b.

(** While a bi-phase frame is in progress, the window pointer is the one
    that belongs to the number of bits remaining. *)
Definition ptrInv (s : BP.t) (g : state) : Prop :=
  bpBitsRemaining g = 0 \/ bpBitTime g = bpPtrAt s (bpBitsRemaining g).

(** The start window of [s] and its bit window have no interval in
    common. *)
Definition pfWindowsDisjoint (s : PF.t) : Prop :=
  forall m, pfStartOK s m = true -> pfInBounds s m = false.

(** Every poll of the session comes no later than the repeat interval
    after the reference time it finds. *)
Fixpoint pollsInTime (p : protocol) (tr : list event) (g : state) : bool :=
  match tr with
  | [] => true
  | e :: r =>
      match e with
      | Poll t => negb (sub32 t (referenceTime g) >? repeatInt)
      | Edge _ => true
      end
      && pollsInTime p r (step p e g)
  end.

(** How often the result [b] occurs in a list of poll results. *)
Definition countResult (b : button) (l : list button) : nat :=
  length (filter (button_eqb b) l).

(** How many PRESSED and RELEASED results polls can still return when no
    further edge arrives. *)
Definition pressesLeft (g : state) : nat := b2n (pending g).

Definition releasesLeft (g : state) : nat :=
  match buttonState (remoteEvents g) with
  | BUTTON_NONE => b2n (negb (buttonCode (remoteEvents g) =? 0))
  | BUTTON_PRESSED | BUTTON_HELD => 1
  | BUTTON_RELEASED => 0
  end.

(** The snapshots returned by successive polls at [times]. *)
Fixpoint pollSnapshots (times : list Z) (g : state) : list remoteEvents_t :=
  match times with
  | [] => []
  | t :: r => fst (lirrGetEvents t g) :: pollSnapshots r (pollState t g)
  end.

(* ------------------------------------------------------------------ *)
(** ** The example sketch (examples/recvExample/recvExample.ino) *)

(** What [loop] writes to the serial port: a label with the value printed
    after it. *)
Inductive message :=
| Pressed (code : Z)
| Toggle (b : bool)
| Held (code : Z)
| Released (code : Z).

(** One pass of [loop]: the sketch's static [showHeld], the library state,
    and the text written. *)
Definition loop (now : Z) (st : bool * state) : list message * (bool * state) :=
  let (showHeld, g) := st in
  let remoteEvents := fst (lirrGetEvents now g) in
  let g := snd (lirrGetEvents now g) in
  match buttonState remoteEvents with
  | BUTTON_PRESSED =>
      ([Pressed (buttonCode remoteEvents); Toggle (toggleState remoteEvents)],
       (showHeld, g))
  | BUTTON_HELD =>
      if showHeld
      then ([Held (buttonCode remoteEvents)], (false, g))
      else ([], (showHeld, g))
  | BUTTON_RELEASED => ([Released (buttonCode remoteEvents)], (true, g))
  | BUTTON_NONE => ([], (showHeld, g))
  end.

(** Passes of [loop] at the given times, with no interrupt in between. *)
Fixpoint loops (times : list Z) (st : bool * state)
    : list message * (bool * state) :=
  match times with
  | [] => ([], st)
  | t :: r =>
      let (out, st') := loop t st in
      let (out', st'') := loops r st' in
      (out ++ out', st'')
  end.
(* ------------------------------------------------------------------ *)
(** ** Bit-level facts *)

Lemma wrap32_u32 x : u32 (wrap32 x).
Proof. unfold u32, wrap32. apply Z.mod_pos_bound. reflexivity. Qed.

Lemma wrap32_small x : u32 x -> wrap32 x = x.
Proof. unfold u32, wrap32. intros H. apply Z.mod_small. exact H. Qed.

Lemma sub32_u32 a b : u32 (sub32 a b).
Proof. apply wrap32_u32. Qed.

Lemma testbit_wrap32 x k :
  0 <= k -> Z.testbit (wrap32 x) k = (k <? 32) && Z.testbit x k.
Proof.
  intros Hk. unfold wrap32.
  destruct (k <? 32) eqn:E.
  - apply Z.ltb_lt in E. rewrite Z.mod_pow2_bits_low by lia. reflexivity.
  - apply Z.ltb_ge in E. rewrite Z.mod_pow2_bits_high by lia. reflexivity.
Qed.

Lemma testbit_shl32 n k :
  0 <= k -> Z.testbit (shl32 n) k = (k <? 32) && (k =? n).
Proof.
  intros Hk. unfold shl32. rewrite testbit_wrap32 by assumption.
  f_equal. rewrite Z.shiftl_spec by assumption.
  destruct (k =? n) eqn:E.
  - apply Z.eqb_eq in E. subst. rewrite Z.sub_diag. reflexivity.
  - apply Z.eqb_neq in E. destruct (Z.lt_ge_cases k n).
    + apply Z.testbit_neg_r. lia.
    + apply Z.bits_above_log2; [lia|]. change (Z.log2 1) with 0. lia.
Qed.

Lemma u32_testbit_high a k : u32 a -> 32 <= k -> Z.testbit a k = false.
Proof.
  intros Ha Hk. rewrite <- (wrap32_small a Ha).
  rewrite testbit_wrap32 by lia.
  replace (k <? 32) with false; [reflexivity|].
  symmetry. apply Z.ltb_ge. exact Hk.
Qed.

(** Adding a power of two into a clear position is setting that bit. *)
Lemma add_clear_bit a n :
  Z.testbit a n = false ->
  a + shl32 n = Z.lor a (shl32 n).
Proof.
  intros Ha.
  assert (Z.land a (shl32 n) = 0) as L.
  { apply Z.bits_inj'. intros k Hk.
    rewrite Z.land_spec, Z.bits_0, testbit_shl32 by assumption.
    destruct (k =? n) eqn:E.
    - apply Z.eqb_eq in E. subst. rewrite Ha. reflexivity.
    - rewrite andb_false_r, andb_false_r. reflexivity. }
  rewrite Z.add_nocarry_lxor by exact L.
  apply Z.lxor_lor. exact L.
Qed.

Lemma msbFirst_snoc bs b : msbFirst (bs ++ [b]) = 2 * msbFirst bs + Z.b2z b.
Proof. unfold msbFirst. rewrite fold_left_app. reflexivity. Qed.

Lemma msbFirst_bounds bs : 0 <= msbFirst bs < 2 ^ Z.of_nat (length bs).
Proof.
  induction bs as [|b bs IH] using rev_ind.
  - cbn. lia.
  - rewrite msbFirst_snoc, length_app. cbn [length].
    replace (Z.of_nat (length bs + 1)) with (Z.succ (Z.of_nat (length bs))) by lia.
    rewrite Z.pow_succ_r by lia. destruct b; cbn [Z.b2z]; lia.
Qed.

(** Bit [k] of the assembled code is the bit received [k] places before the
    last one. *)
Lemma testbit_msbFirst bs k :
  0 <= k ->
  Z.testbit (msbFirst bs) k =
  (k <? Z.of_nat (length bs)) &&
  nth (length bs - 1 - Z.to_nat k) bs false.
Proof.
  revert k. induction bs as [|b bs IH] using rev_ind; intros k Hk.
  - cbn. rewrite Z.bits_0. destruct (k <? 0); destruct (Z.to_nat k); reflexivity.
  - rewrite msbFirst_snoc, length_app. cbn [length].
    destruct (Z.eq_dec k 0) as [->|Hk0].
    + rewrite Z.testbit_0_r.
      replace (length bs + 1 - 1 - Z.to_nat 0)%nat with (length bs) by lia.
      rewrite nth_middle.
      replace (0 <? Z.of_nat (length bs + 1)) with true; [reflexivity|].
      symmetry. apply Z.ltb_lt. lia.
    + replace k with (Z.succ (k - 1)) at 1 by lia.
      rewrite Z.testbit_succ_r by lia.
      rewrite IH by lia.
      replace (k - 1 <? Z.of_nat (length bs)) with (k <? Z.of_nat (length bs + 1))
        by (destruct (Z.ltb_spec k (Z.of_nat (length bs + 1)));
            destruct (Z.ltb_spec (k - 1) (Z.of_nat (length bs))); (reflexivity || lia)).
      destruct (Z.ltb_spec k (Z.of_nat (length bs + 1))) as [Hlt|Hge];
        [|reflexivity].
      cbn [andb].
      replace (length bs + 1 - 1 - Z.to_nat k)%nat
        with (length bs - 1 - Z.to_nat (k - 1))%nat by lia.
      rewrite app_nth1 by lia. reflexivity.
Qed.

Lemma msbFirst_cons b bs :
  msbFirst (b :: bs) = Z.b2z b * 2 ^ Z.of_nat (length bs) + msbFirst bs.
Proof.
  revert b. induction bs as [|c bs IH] using rev_ind; intros b.
  - cbn. destruct b; reflexivity.
  - rewrite app_comm_cons, !msbFirst_snoc, IH, length_app. cbn [length].
    replace (Z.of_nat (length bs + 1)) with (Z.succ (Z.of_nat (length bs))) by lia.
    rewrite Z.pow_succ_r by lia. ring.
Qed.

Lemma testbit_msbFirst_cons b bs k :
  0 <= k ->
  Z.testbit (msbFirst (b :: bs)) k =
  ((k =? Z.of_nat (length bs)) && b) || Z.testbit (msbFirst bs) k.
Proof.
  intros Hk. rewrite !testbit_msbFirst by assumption. cbn [length].
  destruct (Z.ltb_spec k (Z.of_nat (length bs))) as [Hlt|Hge].
  - replace (k <? Z.of_nat (S (length bs))) with true
      by (symmetry; apply Z.ltb_lt; lia).
    replace (k =? Z.of_nat (length bs)) with false
      by (symmetry; apply Z.eqb_neq; lia).
    cbn [andb orb].
    replace (S (length bs) - 1 - Z.to_nat k)%nat
      with (S (length bs - 1 - Z.to_nat k))%nat by lia.
    reflexivity.
  - cbn [andb]. rewrite orb_false_r.
    destruct (Z.eqb_spec k (Z.of_nat (length bs))) as [->|Hne].
    + replace (Z.of_nat (length bs) <? Z.of_nat (S (length bs))) with true
        by (symmetry; apply Z.ltb_lt; lia).
      rewrite Nat2Z.id.
      replace (S (length bs) - 1 - length bs)%nat with 0%nat by lia.
      reflexivity.
    + replace (k <? Z.of_nat (S (length bs))) with false
        by (symmetry; apply Z.ltb_ge; lia).
      reflexivity.
Qed.

(* ------------------------------------------------------------------ *)
(** ** One call of [pulseFractionDecode] *)

Lemma setReferenceTime_same g : setReferenceTime (referenceTime g) g = g.
Proof. destruct g; reflexivity. Qed.

Lemma setReferenceTime_twice a b g :
  setReferenceTime a (setReferenceTime b g) = setReferenceTime a g.
Proof. reflexivity. Qed.

Section PulseFractionStep.
Variable s : PF.t.

(** An edge of the other level only moves the reference, and only in
    width mode. *)
Lemma pf_other_edge p t g :
  Bool.eqb p (PF.distanceMode s) = false ->
  pulseFractionDecode s p t g =
  if PF.distanceMode s then g else setReferenceTime t g.
Proof.
  intros E. unfold pulseFractionDecode. rewrite E.
  destruct (PF.distanceMode s); reflexivity.
Qed.

Lemma pf_frame_untouched_by_reference r g :
  pfBitsRemaining (setReferenceTime r g) = pfBitsRemaining g /\
  incomingCode (setReferenceTime r g) = incomingCode g /\
  remoteEvents (setReferenceTime r g) = remoteEvents g.
Proof. repeat split. Qed.

Lemma pf_referenceTime_measuring t g :
  referenceTime (pulseFractionDecode s (PF.distanceMode s) t g) = t.
Proof.
  unfold pulseFractionDecode, pfStartCheck. rewrite Bool.eqb_reflx.
  cbn.
  repeat match goal with |- context [if ?c then _ else _] => destruct c end;
    reflexivity.
Qed.

(** No frame in progress, or a bit interval out of bounds: the start
    check decides, and the Event Record is not touched. *)
Lemma pf_step_start t g :
  let m := sub32 t (referenceTime g) in
  pfBitsRemaining g = 0 \/ pfInBounds s m = false ->
  pfStartOK s m = true ->
  let g' := pulseFractionDecode s (PF.distanceMode s) t g in
  pfBitsRemaining g' = PF.bits s /\ incomingCode g' = 0 /\
  remoteEvents g' = remoteEvents g.
Proof.
  intros m H Hs g'. subst g'.
  unfold pulseFractionDecode, pfStartCheck. rewrite Bool.eqb_reflx. cbn.
  fold m. unfold pfStartOK in Hs. unfold pfInBounds in H.
  destruct (pfBitsRemaining g =? 0) eqn:E.
  - rewrite Hs. repeat split.
  - destruct H as [H|H]; [apply Z.eqb_neq in E; contradiction|].
    rewrite H, Hs. repeat split.
Qed.

Lemma pf_step_nostart t g :
  let m := sub32 t (referenceTime g) in
  pfBitsRemaining g = 0 \/ pfInBounds s m = false ->
  pfStartOK s m = false ->
  let g' := pulseFractionDecode s (PF.distanceMode s) t g in
  pfBitsRemaining g' = 0 /\ incomingCode g' = incomingCode g /\
  remoteEvents g' = remoteEvents g.
Proof.
  intros m H Hs g'. subst g'.
  unfold pulseFractionDecode, pfStartCheck. rewrite Bool.eqb_reflx. cbn.
  fold m. unfold pfStartOK in Hs. unfold pfInBounds in H.
  destruct (pfBitsRemaining g =? 0) eqn:E.
  - rewrite Hs. apply Z.eqb_eq in E. repeat split. exact E.
  - destruct H as [H|H]; [apply Z.eqb_neq in E; contradiction|].
    rewrite H, Hs. repeat split.
Qed.

(** A frame in progress and the interval inside the bit window: one bit
    is taken, and the frame is published when it was the last. *)
Lemma pf_step_bit t g :
  let m := sub32 t (referenceTime g) in
  pfBitsRemaining g <> 0 ->
  pfInBounds s m = true ->
  let g' := pulseFractionDecode s (PF.distanceMode s) t g in
  let n := pfBitsRemaining g - 1 in
  pfBitsRemaining g' = n /\
  incomingCode g' =
    (if m >? PF.bitSep s then Z.lor (incomingCode g) (shl32 n)
     else incomingCode g) /\
  remoteEvents g' =
    (if n =? 0 then publish (incomingCode g') t (remoteEvents g)
     else remoteEvents g).
Proof.
  intros m Hn Hb g' n. subst g'.
  unfold pulseFractionDecode. rewrite Bool.eqb_reflx. cbn.
  fold m. unfold pfInBounds in Hb. rewrite Hb.
  apply Z.eqb_neq in Hn. rewrite Hn. fold n.
  destruct (m >? PF.bitSep s); destruct (n =? 0); repeat split.
Qed.
End PulseFractionStep.

(* ------------------------------------------------------------------ *)
(** ** Pulse-fraction runs, interval by interval *)

Section PulseFractionRun.
Variable s : PF.t.

Lemma pfRun_app e1 e2 g : pfRun s (e1 ++ e2) g = pfRun s e2 (pfRun s e1 g).
Proof. unfold pfRun. apply fold_left_app. Qed.

(** A run with no measuring edge changes at most the reference time. *)
Lemma pf_no_interval edges : forall g,
  pfIntervals s (referenceTime g) edges = [] ->
  (exists r, pfRun s edges g = setReferenceTime r g) /\
  pfTrace s edges g = [].
Proof.
  induction edges as [|[p t] edges IH]; intros g H.
  - split; [exists (referenceTime g); symmetry; apply setReferenceTime_same
           | reflexivity].
  - cbn [pfIntervals] in H. cbn [pfTrace pfRun fold_left fst snd].
    destruct (Bool.eqb p (PF.distanceMode s)) eqn:E; [discriminate|].
    rewrite (pf_other_edge s p t g E).
    destruct (PF.distanceMode s).
    + apply IH. exact H.
    + destruct (IH (setReferenceTime t g) H) as [[r Hr] Ht].
      split; [exists r; exact Hr | exact Ht].
Qed.

(** A run whose first interval is [m] reaches its first measuring edge
    with the frame data untouched, and goes on from the state after it. *)
Lemma pf_next edges : forall g m rest,
  pfIntervals s (referenceTime g) edges = m :: rest ->
  exists r t e2,
    let g1 := pulseFractionDecode s (PF.distanceMode s) t
                (setReferenceTime r g) in
    sub32 t r = m /\
    pfRun s edges g = pfRun s e2 g1 /\
    pfTrace s edges g = g1 :: pfTrace s e2 g1 /\
    pfIntervals s (referenceTime g1) e2 = rest.
Proof.
  induction edges as [|[p t] edges IH]; intros g m rest H.
  - discriminate.
  - cbn [pfIntervals] in H. cbn [pfTrace pfRun fold_left fst snd].
    destruct (Bool.eqb p (PF.distanceMode s)) eqn:E.
    + apply Bool.eqb_prop in E. subst p. injection H as Hm Hrest.
      exists (referenceTime g), t, edges. cbn zeta.
      rewrite setReferenceTime_same, pf_referenceTime_measuring.
      repeat split; assumption.
    + rewrite (pf_other_edge s p t g E).
      destruct (PF.distanceMode s) eqn:D.
      * destruct (IH g m rest H) as (r & t' & e2 & H1 & H2 & H3 & H4).
        exists r, t', e2. repeat split; assumption.
      * destruct (IH (setReferenceTime t g) m rest H)
          as (r & t' & e2 & H1 & H2 & H3 & H4).
        exists r, t', e2. repeat split; assumption.
Qed.

(** The bits of a frame: with [length ivs] bits still to come and every
    interval inside the bit window, the run ends with no bit remaining,
    has set exactly the bits of the pattern, and has published. *)
Lemma pf_frame_bits ivs : forall edges g,
  pfIntervals s (referenceTime g) edges = ivs ->
  pfBitsRemaining g = Z.of_nat (length ivs) ->
  Forall (fun m => pfInBounds s m = true) ivs ->
  let g' := pfRun s edges g in
  pfBitsRemaining g' = 0 /\
  (forall k, 0 <= k ->
     Z.testbit (incomingCode g') k =
     Z.testbit (incomingCode g) k
     || ((k <? 32) && Z.testbit (msbFirst (pfPattern s ivs)) k)) /\
  (ivs <> [] ->
   exists t, remoteEvents g' = publish (incomingCode g') t (remoteEvents g)).
Proof.
  induction ivs as [|m ivs IH]; intros edges g Hiv Hn Hb.
  - destruct (pf_no_interval edges g Hiv) as [[r Hr] _].
    cbn zeta. rewrite Hr. cbn. repeat split.
    + exact Hn.
    + intros k Hk. rewrite Z.bits_0, andb_false_r, orb_false_r. reflexivity.
    + intros C. contradiction.
  - destruct (pf_next edges g m ivs Hiv) as (r & t & e2 & Hm & Hrun & _ & Hrest).
    cbn zeta in *. rewrite Hrun. subst m.
    set (g0 := setReferenceTime r g) in *.
    set (g1 := pulseFractionDecode s (PF.distanceMode s) t g0) in *.
    pose proof (Forall_inv Hb) as Hbm. pose proof (Forall_inv_tail Hb) as Hbr.
    cbn beta in Hbm.
    assert (pfBitsRemaining g0 <> 0) as Hne
      by (unfold g0; cbn; rewrite Hn; cbn [length]; lia).
    destruct (pf_step_bit s t g0 Hne Hbm) as (S1 & S2 & S3).
    fold g1 in S1, S2, S3. cbn zeta in S1, S2, S3.
    replace (pfBitsRemaining g0 - 1) with (Z.of_nat (length ivs)) in *
      by (unfold g0; cbn; rewrite Hn; cbn [length]; lia).
    replace (sub32 t (referenceTime g0)) with (sub32 t r) in * by reflexivity.
    replace (incomingCode g0) with (incomingCode g) in * by reflexivity.
    replace (remoteEvents g0) with (remoteEvents g) in * by reflexivity.
    destruct (IH e2 g1 Hrest S1 Hbr) as (I1 & I2 & I3).
    split; [exact I1|]. split.
    + intros k Hk. rewrite (I2 k Hk), S2.
      unfold pfPattern. cbn [map]. fold (pfPattern s ivs).
      rewrite testbit_msbFirst_cons by assumption.
      unfold pfPattern at 2. rewrite length_map.
      destruct (sub32 t r >? PF.bitSep s).
      * rewrite Z.lor_spec, testbit_shl32 by lia.
        destruct (Z.testbit (incomingCode g) k), (k <? 32),
          (k =? Z.of_nat (length ivs)),
          (Z.testbit (msbFirst (pfPattern s ivs)) k); reflexivity.
      * rewrite andb_false_r. reflexivity.
    + intros _. destruct ivs as [|m' ivs'].
      * (* the bit just taken was the last one *)
        cbn in S3. destruct (pf_no_interval e2 g1 Hrest) as [[r' Hr'] _].
        exists t. rewrite Hr'. cbn. exact S3.
      * destruct I3 as [t' Ht']; [discriminate|].
        exists t'. rewrite Ht'. f_equal.
        rewrite S3.
        replace (Z.of_nat (length (m' :: ivs')) =? 0) with false; [reflexivity|].
        symmetry. apply Z.eqb_neq. cbn [length]. lia.
Qed.
End PulseFractionRun.

Section PulseFractionView.
Variable s : PF.t.

Lemma pf_measure_view t g :
  let m := sub32 t (referenceTime g) in
  let g' := pulseFractionDecode s (PF.distanceMode s) t g in
  pfView g' = pfViewStep s m (pfView g) /\
  remoteEvents g' =
    (if pfCompletes s m (pfBitsRemaining g)
     then publish (incomingCode g') t (remoteEvents g)
     else remoteEvents g).
Proof.
  intros m g'. unfold pfView, pfViewStep, pfCompletes.
  destruct (Z.eqb_spec (pfBitsRemaining g) 0) as [Hz|Hnz];
    [| destruct (pfInBounds s m) eqn:Hb ]; cbn [orb negb andb].
  - destruct (pfStartOK s m) eqn:Hs.
    + destruct (pf_step_start s t g (or_introl Hz) Hs) as (A & B & C).
      fold g' in A, B, C. rewrite A, B, C. split; reflexivity.
    + destruct (pf_step_nostart s t g (or_introl Hz) Hs) as (A & B & C).
      fold g' in A, B, C. rewrite A, B, C. split; reflexivity.
  - destruct (pf_step_bit s t g Hnz Hb) as (A & B & C).
    fold g' m in A, B, C. cbn zeta in A, B, C. rewrite A, C.
    split; [rewrite B|]; reflexivity.
  - destruct (pfStartOK s m) eqn:Hs.
    + destruct (pf_step_start s t g (or_intror Hb) Hs) as (A & B & C).
      fold g' in A, B, C. rewrite A, B, C. split; reflexivity.
    + destruct (pf_step_nostart s t g (or_intror Hb) Hs) as (A & B & C).
      fold g' in A, B, C. rewrite A, B, C. split; reflexivity.
Qed.

(** The first interval of a run, in terms of the working state. *)
Lemma pf_view_next edges g m rest :
  pfIntervals s (referenceTime g) edges = m :: rest ->
  exists g1 e2,
    pfTrace s edges g = g1 :: pfTrace s e2 g1 /\
    pfRun s edges g = pfRun s e2 g1 /\
    pfIntervals s (referenceTime g1) e2 = rest /\
    pfView g1 = pfViewStep s m (pfView g) /\
    (pfCompletes s m (pfBitsRemaining g) = false ->
     remoteEvents g1 = remoteEvents g) /\
    (pfCompletes s m (pfBitsRemaining g) = true ->
     exists t, remoteEvents g1 = publish (incomingCode g1) t (remoteEvents g)).
Proof.
  intros H.
  destruct (pf_next s edges g m rest H) as (r & t & e2 & Hm & Hrun & Htr & Hrest).
  cbn zeta in *.
  destruct (pf_measure_view t (setReferenceTime r g)) as [V E].
  cbn [referenceTime setReferenceTime] in V, E. rewrite Hm in V, E.
  exists (pulseFractionDecode s (PF.distanceMode s) t (setReferenceTime r g)), e2.
  split; [exact Htr|]. split; [exact Hrun|]. split; [exact Hrest|].
  split; [exact V|].
  cbn [pfBitsRemaining setReferenceTime] in E.
  split; intros C; rewrite C in E; [exact E | exists t; exact E].
Qed.
End PulseFractionView.

(** One measured interval of a run, with the view of the state before it
    known to be [v]. *)
Ltac pf_interval H V0 g' e' V' E' :=
  let T := fresh "T" in
  let R := fresh "R" in
  let I := fresh "I" in
  destruct (pf_view_next _ _ _ _ _ H) as (g' & e' & T & R & I & V' & E' & _);
  rewrite T, R; clear T R H; rename I into H;
  match type of E' with
  | context [pfBitsRemaining ?g] =>
      change (pfBitsRemaining g) with (fst (pfView g)) in E'
  end;
  rewrite V0 in V', E';
  match type of V' with
  | ?l = ?r => let r' := eval vm_compute in r in change (l = r') in V'
  end;
  specialize (E' eq_refl).

(** C6: in the scenario of the spec, the first 800 begins a frame, the
    second 800 is a 1-bit (accumulator 8, three bits left), 300 aborts and
    restarts on the same edge, 800 and 900 are 1-bits (8, then 12), 500 is
    a 0-bit (12, one bit left), 1600 aborts and restarts with the
    accumulator back at 0; no frame completes, so the Event Record never
    changes. *)
Theorem C6_scenario_trace edges g :
  pfBitsRemaining g = 0 ->
  pfIntervals scenarioSettings (referenceTime g) edges = scenarioIntervals ->
  map pfView (pfTrace scenarioSettings edges g) =
    [(4, 0); (3, 8); (4, 0); (3, 8); (2, 12); (1, 12); (4, 0)] /\
  Forall (fun g' => remoteEvents g' = remoteEvents g)
         (pfTrace scenarioSettings edges g) /\
  remoteEvents (pfRun scenarioSettings edges g) = remoteEvents g.
Proof.
  intros Hn H. unfold scenarioIntervals in H.
  assert (pfView g = (0, incomingCode g)) as V0
    by (unfold pfView; rewrite Hn; reflexivity).
  pf_interval H V0 g1 e1 V1 E1.
  pf_interval H V1 g2 e2 V2 E2.
  pf_interval H V2 g3 e3 V3 E3.
  pf_interval H V3 g4 e4 V4 E4.
  pf_interval H V4 g5 e5 V5 E5.
  pf_interval H V5 g6 e6 V6 E6.
  pf_interval H V6 g7 e7 V7 E7.
  destruct (pf_no_interval _ _ _ H) as [[r Hr] Ht]. rewrite Ht, Hr.
  cbn [map]. rewrite V1, V2, V3, V4, V5, V6, V7.
  split; [reflexivity|]. split.
  - repeat constructor; congruence.
  - cbn [remoteEvents setReferenceTime]. congruence.
Qed.


Lemma C6_scenario_trace_witness :
  pfBitsRemaining initialState = 0 /\
  pfIntervals scenarioSettings (referenceTime initialState) scenarioEdges
    = scenarioIntervals /\
  map pfView (pfTrace scenarioSettings scenarioEdges initialState) =
    [(4, 0); (3, 8); (4, 0); (3, 8); (2, 12); (1, 12); (4, 0)].
Proof.
  split; [reflexivity|]. split; [reflexivity|].
  apply (C6_scenario_trace scenarioEdges initialState); reflexivity.
Defined.

(* ------------------------------------------------------------------ *)
(** ** A whole pulse-fraction frame *)

(** A start edge that the decoder takes as such (it is idle, or the start
    interval is no bit interval and so aborts whatever was in progress),
    followed by one in-bounds interval per bit. *)
Lemma pf_frame s edges g start ivs :
  pfIntervals s (referenceTime g) edges = start :: ivs ->
  pfBitsRemaining g = 0 \/ pfInBounds s start = false ->
  pfStartOK s start = true ->
  Z.of_nat (length ivs) = PF.bits s ->
  Forall (fun m => pfInBounds s m = true) ivs ->
  let g' := pfRun s edges g in
  pfBitsRemaining g' = 0 /\
  incomingCode g' = wrap32 (msbFirst (pfPattern s ivs)) /\
  (ivs <> [] ->
   exists t, remoteEvents g' = publish (incomingCode g') t (remoteEvents g)).
Proof.
  intros Hiv Hidle Hs Hlen Hb g'. subst g'.
  destruct (pf_view_next s edges g start ivs Hiv)
    as (g1 & e1 & _ & R & I & V & E & _).
  rewrite R.
  assert ((pfBitsRemaining g =? 0) || negb (pfInBounds s start) = true) as C.
  { destruct Hidle as [H|H]; rewrite H; [reflexivity | apply orb_true_r]. }
  unfold pfView, pfViewStep in V. rewrite C, Hs in V. injection V as Vn Va.
  assert (pfCompletes s start (pfBitsRemaining g) = false) as NC.
  { unfold pfCompletes. destruct Hidle as [H|H]; rewrite H;
      [reflexivity | rewrite andb_false_r; reflexivity]. }
  specialize (E NC).
  destruct (pf_frame_bits s ivs e1 g1 I) as (F1 & F2 & F3);
    [rewrite Vn; symmetry; exact Hlen | exact Hb |].
  cbn zeta in F1, F2, F3. split; [exact F1|]. split.
  - apply Z.bits_inj'. intros k Hk.
    rewrite (F2 k Hk), Va, Z.bits_0, testbit_wrap32 by assumption.
    reflexivity.
  - intros Hne. destruct (F3 Hne) as [t Ht]. exists t. rewrite Ht, E.
    reflexivity.
Qed.

Lemma length_pfPattern s ivs : length (pfPattern s ivs) = length ivs.
Proof. apply length_map. Qed.

Lemma nth_pfPattern s ivs i :
  (i < length ivs)%nat ->
  nth i (pfPattern s ivs) false = (nth i ivs 0 >? PF.bitSep s).
Proof.
  intros Hi. unfold pfPattern.
  rewrite (nth_indep _ false (0 >? PF.bitSep s)) by (rewrite length_map; exact Hi).
  apply (map_nth (fun m => m >? PF.bitSep s)).
Qed.

(** C1: a valid start interval followed by one in-bounds interval per bit,
    fed to an idle pulse-fraction decoder, completes a frame: no bit
    remains, the accumulator is the most-significant-bit-first assembly of
    the pattern (as far as it fits the 32-bit accumulator: exactly, for
    frames of at most 32 bits), bit [k] is set if and only if the interval
    received with [k] bits remaining exceeds [bitSep], and the code is
    published into an Event Record in state NONE. *)
Theorem C1_pulse_fraction_round_trip s edges g start ivs :
  pfBitsRemaining g = 0 ->
  pfIntervals s (referenceTime g) edges = start :: ivs ->
  pfStartOK s start = true ->
  Z.of_nat (length ivs) = PF.bits s ->
  Forall (fun m => pfInBounds s m = true) ivs ->
  let g' := pfRun s edges g in
  let code := msbFirst (pfPattern s ivs) in
  pfBitsRemaining g' = 0 /\
  incomingCode g' = wrap32 code /\
  (PF.bits s <= 32 -> incomingCode g' = code) /\
  (forall k, 0 <= k < PF.bits s -> k < 32 ->
     Z.testbit (incomingCode g') k =
     (nth (Z.to_nat (PF.bits s - 1 - k)) ivs 0 >? PF.bitSep s)) /\
  (0 < PF.bits s -> buttonState (remoteEvents g) = BUTTON_NONE ->
     buttonCode (remoteEvents g') = incomingCode g' /\
     toggleState (remoteEvents g') = negb (toggleState (remoteEvents g))).
Proof.
  intros Hidle Hiv Hs Hlen Hb g' code.
  destruct (pf_frame s edges g start ivs Hiv (or_introl Hidle) Hs Hlen Hb)
    as (F1 & F2 & F3).
  fold g' code in F1, F2, F3.
  pose proof (msbFirst_bounds (pfPattern s ivs)) as Hc. fold code in Hc.
  unfold pfPattern in Hc. rewrite length_map, Hlen in Hc.
  split; [exact F1|]. split; [exact F2|]. split; [|split].
  - intros H32. rewrite F2. apply wrap32_small. unfold u32.
    assert (2 ^ PF.bits s <= 2 ^ 32) by (apply Z.pow_le_mono_r; lia). lia.
  - intros k Hk H32. rewrite F2, testbit_wrap32 by lia.
    replace (k <? 32) with true by (symmetry; apply Z.ltb_lt; exact H32).
    unfold code. rewrite testbit_msbFirst by lia.
    rewrite !length_pfPattern.
    replace (k <? Z.of_nat (length ivs)) with true
      by (symmetry; apply Z.ltb_lt; lia).
    cbn [andb].
    replace (length ivs - 1 - Z.to_nat k)%nat
      with (Z.to_nat (PF.bits s - 1 - k)) by lia.
    apply nth_pfPattern. lia.
  - intros Hpos Hnone. destruct F3 as [t Ht].
    + destruct ivs; [cbn in Hlen; lia | discriminate].
    + rewrite Ht. unfold publish. rewrite Hnone. cbn. split; reflexivity.
Qed.

Lemma C1_pulse_fraction_round_trip_witness :
  let g' := pfRun PROTOCOL_SIRC sircEdges initialState in
  pfIntervals PROTOCOL_SIRC (referenceTime initialState) sircEdges
    = 2400 :: sircPulses /\
  pfBitsRemaining g' = 0 /\
  incomingCode g' = 2121 /\
  buttonCode (remoteEvents g') = 2121.
Proof.
  destruct (C1_pulse_fraction_round_trip PROTOCOL_SIRC sircEdges initialState
              2400 sircPulses)
    as (A & B & C & D & E).
  - reflexivity.
  - reflexivity.
  - reflexivity.
  - reflexivity.
  - repeat constructor.
  - cbn zeta in *. destruct E as [E _]; [reflexivity | reflexivity |].
    split; [reflexivity|]. split; [exact A|].
    rewrite E, C; [split; reflexivity | cbn; lia].
Defined.

(* ------------------------------------------------------------------ *)
(** ** One call of [biPhaseDecode] *)

Section BiPhaseStep.
Variable s : BP.t.

(** No frame in progress, or the edge came too late: the frame (if any) is
    dropped and only a rising edge starts a new one. *)
Lemma bp_step_restart pin t g :
  bpBitsRemaining g = 0 \/ bpIsLate s t g = true ->
  biPhaseDecode s pin t g =
  bpStartCheck s pin t (setBpBitsRemaining 0 g).
Proof.
  intros H. unfold biPhaseDecode.
  destruct (Z.eqb_spec (bpBitsRemaining g) 0) as [Hz|Hnz].
  - destruct g; cbn in *. subst. reflexivity.
  - destruct H as [H|H]; [contradiction|].
    unfold bpIsLate, bpWindow in H. apply negb_true_iff in H. rewrite H.
    reflexivity.
Qed.

(** The other transition of a Manchester bit: nothing changes. *)
Lemma bp_step_early pin t g :
  bpBitsRemaining g <> 0 -> bpIsEarly s t g = true ->
  biPhaseDecode s pin t g = g.
Proof.
  intros Hnz H. unfold biPhaseDecode.
  apply Z.eqb_neq in Hnz. rewrite Hnz.
  unfold bpIsEarly, bpWindow in H. apply andb_true_iff in H as [H1 H2].
  apply negb_true_iff in H2. rewrite H1, H2. reflexivity.
Qed.

(** The middle of a bit. *)
Lemma bp_step_mid pin t g :
  bpBitsRemaining g <> 0 -> bpIsMid s t g = true ->
  let g' := biPhaseDecode s pin t g in
  let n := bpBitsRemaining g - 1 in
  referenceTime g' = t /\
  bpBitsRemaining g' = n /\
  incomingCode g' =
    (if Bool.eqb pin (BP.aceRising s) && negb (n =? BP.togglePos s)
     then wrap32 (incomingCode g + shl32 n) else incomingCode g) /\
  remoteEvents g' =
    (if n =? 0 then publish (incomingCode g') t (remoteEvents g)
     else remoteEvents g) /\
  bpBitTime g' = (if n =? 0 then bpBitTime g else bpNextPtr s n) /\
  pfBitsRemaining g' = pfBitsRemaining g /\
  isrPinState g' = isrPinState g.
Proof.
  intros Hnz H g' n. subst g'. unfold biPhaseDecode.
  apply Z.eqb_neq in Hnz. rewrite Hnz.
  unfold bpIsMid, bpWindow in H. apply andb_true_iff in H as [H1 H2].
  rewrite H1, H2. cbn [setReferenceTime bpBitsRemaining incomingCode
    remoteEvents setBpBitsRemaining]. fold n. unfold bpNextPtr.
  destruct (Bool.eqb pin (BP.aceRising s)); destruct (n =? BP.togglePos s);
    destruct (n =? 0); destruct (n =? BP.togglePos s + 1);
    cbn; repeat split.
Qed.

Lemma bp_cases t g :
  bpBitsRemaining g = 0 \/ bpIsLate s t g = true \/
  (bpBitsRemaining g <> 0 /\ bpIsEarly s t g = true) \/
  (bpBitsRemaining g <> 0 /\ bpIsMid s t g = true).
Proof.
  destruct (Z.eq_dec (bpBitsRemaining g) 0) as [Hz|Hnz]; [left; exact Hz|].
  right. unfold bpIsLate, bpIsEarly, bpIsMid.
  destruct (_ <? _); destruct (_ >? _); cbn; auto.
Qed.

Lemma bpStartCheck_events pin t g :
  remoteEvents (bpStartCheck s pin t g) = remoteEvents g.
Proof. unfold bpStartCheck. destruct pin; reflexivity. Qed.

Lemma bp_late_not_mid t g : bpIsLate s t g = true -> bpIsMid s t g = false.
Proof.
  unfold bpIsLate, bpIsMid. intros H. apply negb_true_iff in H. rewrite H.
  reflexivity.
Qed.

Lemma bp_early_not_mid t g : bpIsEarly s t g = true -> bpIsMid s t g = false.
Proof.
  unfold bpIsEarly, bpIsMid. intros H. apply andb_true_iff in H as [H1 H2].
  apply negb_true_iff in H2. rewrite H1, H2. reflexivity.
Qed.
End BiPhaseStep.

(* ------------------------------------------------------------------ *)
(** ** What a decoder call does to the Event Record *)

Lemma publish_none code t ev :
  buttonState ev = BUTTON_NONE ->
  publish code t ev = Events t (curTime ev) code BUTTON_NONE (negb (toggleState ev)).
Proof. intros H. unfold publish. rewrite H. reflexivity. Qed.

Lemma publish_active code t ev :
  buttonState ev <> BUTTON_NONE -> publish code t ev = ev.
Proof.
  intros H. unfold publish. destruct (buttonState ev); try reflexivity.
  contradiction.
Qed.

Lemma publish_buttonState code t ev :
  buttonState (publish code t ev) = buttonState ev.
Proof. unfold publish. destruct (buttonState ev) eqn:E; cbn; congruence. Qed.

(** The Event Record changes only when a frame completes, and then by the
    publication block. *)
Lemma decode_events p pin t g :
  remoteEvents (decode p pin t g) =
  if completes p pin t g
  then publish (incomingCode (decode p pin t g)) t (remoteEvents g)
  else remoteEvents g.
Proof.
  destruct p as [s|s]; cbn [decode completes].
  - destruct (Bool.eqb pin (PF.distanceMode s)) eqn:E; cbn [andb].
    + apply Bool.eqb_prop in E. subst pin.
      apply (pf_measure_view s t g).
    + rewrite (pf_other_edge s pin t g E).
      destruct (PF.distanceMode s); reflexivity.
  - destruct (bp_cases s t g) as [H|[H|[[Hn H]|[Hn H]]]].
    + rewrite (bp_step_restart s pin t g (or_introl H)), bpStartCheck_events.
      rewrite H. reflexivity.
    + rewrite (bp_step_restart s pin t g (or_intror H)), bpStartCheck_events.
      rewrite (bp_late_not_mid s t g H), andb_false_r. reflexivity.
    + rewrite (bp_step_early s pin t g Hn H).
      rewrite (bp_early_not_mid s t g H), andb_false_r. reflexivity.
    + destruct (bp_step_mid s pin t g Hn H) as (_ & _ & _ & E & _).
      cbn zeta in E. rewrite E, H.
      apply Z.eqb_neq in Hn. rewrite Hn. reflexivity.
Qed.

(** C2: when the last bit of a frame is taken, in either decoder, the
    decoder is left with no bit remaining; an Event Record in state NONE
    receives the accumulator as buttonCode, the edge's timestamp as
    pressTime and an inverted toggleState; an Event Record in any other
    state is left exactly as it was; so the toggle is inverted if and only
    if the state is NONE.  The decoder keeps running: the next rising edge
    (bi-phase) or valid start interval (pulse-fraction) begins a frame. *)
Theorem C2_completion_publishes_iff_none :
  (forall s t g,
     pfBitsRemaining g = 1 ->
     pfInBounds s (sub32 t (referenceTime g)) = true ->
     let g' := pulseFractionDecode s (PF.distanceMode s) t g in
     let ev := remoteEvents g in
     pfBitsRemaining g' = 0 /\
     (buttonState ev = BUTTON_NONE ->
      remoteEvents g' =
      Events t (curTime ev) (incomingCode g') BUTTON_NONE (negb (toggleState ev))) /\
     (buttonState ev <> BUTTON_NONE -> remoteEvents g' = ev) /\
     (toggleState (remoteEvents g') = negb (toggleState ev)
      <-> buttonState ev = BUTTON_NONE) /\
     (forall t2, pfStartOK s (sub32 t2 t) = true ->
        pfBitsRemaining (pulseFractionDecode s (PF.distanceMode s) t2 g')
        = PF.bits s)) /\
  (forall s pin t g,
     bpBitsRemaining g = 1 ->
     bpIsMid s t g = true ->
     let g' := biPhaseDecode s pin t g in
     let ev := remoteEvents g in
     bpBitsRemaining g' = 0 /\
     (buttonState ev = BUTTON_NONE ->
      remoteEvents g' =
      Events t (curTime ev) (incomingCode g') BUTTON_NONE (negb (toggleState ev))) /\
     (buttonState ev <> BUTTON_NONE -> remoteEvents g' = ev) /\
     (toggleState (remoteEvents g') = negb (toggleState ev)
      <-> buttonState ev = BUTTON_NONE) /\
     (forall t2,
        bpBitsRemaining (biPhaseDecode s true t2 g') = BP.bits s)).
Proof.
  split.
  - intros s t g Hn Hb g' ev.
    assert (pfBitsRemaining g <> 0) as Hnz by lia.
    destruct (pf_step_bit s t g Hnz Hb) as (A & B & C).
    fold g' in A, B, C. cbn zeta in A, B, C. rewrite Hn in A, C.
    cbn in A, C. fold ev in C.
    split; [exact A|]. split; [|split; [|split]].
    + intros H. rewrite C. apply publish_none. exact H.
    + intros H. rewrite C. apply publish_active. exact H.
    + rewrite C. unfold publish.
      destruct (buttonState ev) eqn:E; cbn; split; intros H;
        try reflexivity; try discriminate;
        destruct (toggleState ev); discriminate.
    + intros t2 Hs.
      apply (pf_step_start s t2 g'); [left; exact A|].
      cbn zeta. unfold g'. rewrite pf_referenceTime_measuring. exact Hs.
  - intros s pin t g Hn Hb g' ev.
    assert (bpBitsRemaining g <> 0) as Hnz by lia.
    destruct (bp_step_mid s pin t g Hnz Hb) as (_ & A & _ & C & _).
    fold g' in A, C. cbn zeta in A, C. rewrite Hn in A, C.
    cbn in A, C. fold ev in C.
    split; [exact A|]. split; [|split; [|split]].
    + intros H. rewrite C. apply publish_none. exact H.
    + intros H. rewrite C. apply publish_active. exact H.
    + rewrite C. unfold publish.
      destruct (buttonState ev) eqn:E; cbn; split; intros H;
        try reflexivity; try discriminate;
        destruct (toggleState ev); discriminate.
    + intros t2.
      rewrite (bp_step_restart s true t2 g' (or_introl A)). reflexivity.
Qed.

Lemma C2_completion_publishes_iff_none_witness :
  let g1 := State 0 12 (Events 0 0 0 BUTTON_NONE false) 1 0 PtrNull false in
  let g2 := State 0 0 (Events 7 9 5 BUTTON_HELD true) 0 1 PtrBitTime false in
  remoteEvents (pulseFractionDecode scenarioSettings true 800 g1)
    = Events 800 0 13 BUTTON_NONE true /\
  remoteEvents (biPhaseDecode PROTOCOL_RC5 true 1778 g2)
    = Events 7 9 5 BUTTON_HELD true.
Proof.
  intros g1 g2. destruct C2_completion_publishes_iff_none as [P B]. split.
  - destruct (P scenarioSettings 800 g1 eq_refl eq_refl) as (_ & H & _).
    exact (H eq_refl).
  - destruct (B PROTOCOL_RC5 true 1778 g2 eq_refl eq_refl) as (_ & _ & H & _).
    apply H. discriminate.
Defined.

(* ------------------------------------------------------------------ *)
(** ** The poll *)

(** C8: a poll leaves pressTime and toggleState as they were; it changes
    buttonCode only by clearing it on the RELEASED -> NONE transition; the
    other fields it writes are curTime and buttonState; the reference time
    and the decoders' working state are not written, and the snapshot
    returned is the stored Event Record. *)
Theorem C8_poll_writes_only_state now g :
  let ev := remoteEvents g in
  let ev' := fst (lirrGetEvents now g) in
  let g' := snd (lirrGetEvents now g) in
  remoteEvents g' = ev' /\
  pressTime ev' = pressTime ev /\
  toggleState ev' = toggleState ev /\
  curTime ev' = now /\
  (buttonCode ev' = buttonCode ev \/
   (buttonState ev = BUTTON_RELEASED /\ buttonState ev' = BUTTON_NONE /\
    buttonCode ev' = 0)) /\
  referenceTime g' = referenceTime g /\
  incomingCode g' = incomingCode g /\
  pfBitsRemaining g' = pfBitsRemaining g /\
  bpBitsRemaining g' = bpBitsRemaining g /\
  bpBitTime g' = bpBitTime g /\
  isrPinState g' = isrPinState g.
Proof.
  destruct g as [r a [pt ct bc bs ts] n1 n2 bt ps].
  unfold lirrGetEvents, fetchCode. cbn.
  destruct bs; cbn;
    repeat match goal with
           | |- context [if ?c then _ else _] => destruct c; cbn
           end;
    repeat split; auto.
Qed.

Ltac poll_cases g :=
  destruct g as [? ? [? ? ? [] ?] ? ? ? ?];
  unfold pollState, pollResult, lirrGetEvents, fetchCode; cbn;
  repeat match goal with
         | |- context [if ?c then _ else _] => destruct c eqn:?; cbn
         end.

Section Poll.
Variables (now : Z) (g : state).

Lemma poll_referenceTime : referenceTime (pollState now g) = referenceTime g.
Proof. reflexivity. Qed.

Lemma poll_toggleState :
  toggleState (remoteEvents (pollState now g)) = toggleState (remoteEvents g).
Proof. poll_cases g; reflexivity. Qed.

Lemma poll_pressTime :
  pressTime (remoteEvents (pollState now g)) = pressTime (remoteEvents g).
Proof. poll_cases g; reflexivity. Qed.

Lemma poll_result_state :
  pollResult now g = buttonState (remoteEvents (pollState now g)).
Proof. reflexivity. Qed.

(** The four transitions. *)
Lemma poll_none :
  buttonState (remoteEvents g) = BUTTON_NONE ->
  buttonState (remoteEvents (pollState now g)) =
    (if buttonCode (remoteEvents g) =? 0 then BUTTON_NONE else BUTTON_PRESSED)
  /\ buttonCode (remoteEvents (pollState now g)) = buttonCode (remoteEvents g).
Proof. poll_cases g; intros; try discriminate; split; reflexivity. Qed.

Lemma poll_pressed :
  buttonState (remoteEvents g) = BUTTON_PRESSED ->
  buttonState (remoteEvents (pollState now g)) = BUTTON_HELD
  /\ buttonCode (remoteEvents (pollState now g)) = buttonCode (remoteEvents g).
Proof. poll_cases g; intros; try discriminate; split; reflexivity. Qed.

Lemma poll_held :
  buttonState (remoteEvents g) = BUTTON_HELD ->
  buttonState (remoteEvents (pollState now g)) =
    (if sub32 now (referenceTime g) >? repeatInt
     then BUTTON_RELEASED else BUTTON_HELD)
  /\ buttonCode (remoteEvents (pollState now g)) = buttonCode (remoteEvents g).
Proof. poll_cases g; intros; try discriminate; split; reflexivity. Qed.

Lemma poll_released :
  buttonState (remoteEvents g) = BUTTON_RELEASED ->
  buttonState (remoteEvents (pollState now g)) = BUTTON_NONE
  /\ buttonCode (remoteEvents (pollState now g)) = 0.
Proof. poll_cases g; intros; try discriminate; split; reflexivity. Qed.
End Poll.

Lemma poll_code_cases now g :
  buttonCode (remoteEvents (pollState now g)) = buttonCode (remoteEvents g)
  \/ buttonCode (remoteEvents (pollState now g)) = 0.
Proof. poll_cases g; auto. Qed.

(** With nothing pending, polls keep returning NONE. *)
Lemma polls_idle ts : forall g,
  buttonState (remoteEvents g) = BUTTON_NONE ->
  buttonCode (remoteEvents g) = 0 ->
  pollResults ts g = repeat BUTTON_NONE (length ts).
Proof.
  induction ts as [|t ts IH]; intros g Hs Hc; [reflexivity|].
  cbn [pollResults length repeat].
  destruct (poll_none t g Hs) as [A B]. rewrite Hc in B.
  rewrite Hc, Z.eqb_refl in A.
  rewrite poll_result_state, A. f_equal. apply IH; [exact A | exact B].
Qed.

(** An isolated press does not yield PRESSED and then RELEASED with no
    HELD result in between: after the SIRC frame of [sircEdges] has been
    published into the initial (NONE) Event Record, polls that all come
    more than the repeat interval after the last edge return PRESSED,
    HELD, RELEASED, NONE. *)
Lemma C3_no_held_counterexample :
  buttonState (remoteEvents afterSircFrame) = BUTTON_NONE /\
  buttonCode (remoteEvents afterSircFrame) = 2121 /\
  Forall (fun t => sub32 t (referenceTime afterSircFrame) > repeatInt)
         latePolls /\
  pollResults latePolls afterSircFrame
    = [BUTTON_PRESSED; BUTTON_HELD; BUTTON_RELEASED; BUTTON_NONE] /\
  pollResults latePolls afterSircFrame
    <> [BUTTON_PRESSED; BUTTON_RELEASED; BUTTON_NONE; BUTTON_NONE] /\
  In BUTTON_HELD (pollResults latePolls afterSircFrame).
Proof.
  assert (pollResults latePolls afterSircFrame
          = [BUTTON_PRESSED; BUTTON_HELD; BUTTON_RELEASED; BUTTON_NONE]) as R
    by (vm_compute; reflexivity).
  split; [vm_compute; reflexivity|]. split; [vm_compute; reflexivity|]. split.
  - repeat constructor; vm_compute; reflexivity.
  - rewrite R. split; [reflexivity|]. split; [discriminate|].
    right. left. reflexivity.
Qed.

(** C3 (amended): after a frame with a nonzero code has been published
    into a NONE Event Record and the decoder sees no further edge, polls
    that all come after the silence has exceeded the repeat interval
    return exactly one PRESSED, then exactly one HELD (the PRESSED -> HELD
    transition is unconditional), then exactly one RELEASED, then NONE on
    every later poll. *)
Theorem C3_isolated_press_sequence g t1 t2 t3 rest :
  buttonState (remoteEvents g) = BUTTON_NONE ->
  buttonCode (remoteEvents g) <> 0 ->
  Forall (fun t => sub32 t (referenceTime g) > repeatInt)
         (t1 :: t2 :: t3 :: rest) ->
  pollResults (t1 :: t2 :: t3 :: rest) g =
  BUTTON_PRESSED :: BUTTON_HELD :: BUTTON_RELEASED
  :: repeat BUTTON_NONE (length rest).
Proof.
  intros Hs Hc Hgap.
  pose proof (Forall_inv (Forall_inv_tail (Forall_inv_tail Hgap))) as H3.
  cbn beta in H3.
  cbn [pollResults]. rewrite !poll_result_state.
  destruct (poll_none t1 g Hs) as [A1 B1].
  apply Z.eqb_neq in Hc. rewrite Hc in A1.
  set (g1 := pollState t1 g) in *.
  destruct (poll_pressed t2 g1 A1) as [A2 B2].
  set (g2 := pollState t2 g1) in *.
  destruct (poll_held t3 g2 A2) as [A3 B3].
  replace (referenceTime g2) with (referenceTime g) in A3 by reflexivity.
  apply Z.gt_lt, Z.gtb_lt in H3. rewrite H3 in A3.
  set (g3 := pollState t3 g2) in *.
  rewrite A1, A2, A3. do 3 f_equal.
  destruct rest as [|t4 rest]; [reflexivity|].
  cbn [pollResults length repeat].
  destruct (poll_released t4 g3 A3) as [A4 B4].
  rewrite poll_result_state, A4. f_equal.
  apply polls_idle; assumption.
Qed.

Lemma C3_isolated_press_sequence_witness :
  pollResults latePolls afterSircFrame =
  [BUTTON_PRESSED; BUTTON_HELD; BUTTON_RELEASED; BUTTON_NONE].
Proof.
  apply (C3_isolated_press_sequence afterSircFrame 200000 300000 400000 [500000]).
  - vm_compute; reflexivity.
  - vm_compute; discriminate.
  - repeat constructor; vm_compute; reflexivity.
Defined.

(** C10: a frame that completes with an all-zero accumulator while the
    Event Record is in state NONE still sets pressTime to the completion
    timestamp and inverts toggleState, publishing buttonCode = 0; since the
    poll goes from NONE to PRESSED only on a nonzero buttonCode, every
    later poll returns NONE, with the changed toggle flag and press
    timestamp in its snapshot. *)
Theorem C10_zero_code_toggles_unseen p pin t g :
  completes p pin t g = true ->
  buttonState (remoteEvents g) = BUTTON_NONE ->
  incomingCode (decode p pin t g) = 0 ->
  let g' := decode p pin t g in
  buttonCode (remoteEvents g') = 0 /\
  pressTime (remoteEvents g') = t /\
  toggleState (remoteEvents g') = negb (toggleState (remoteEvents g)) /\
  buttonState (remoteEvents g') = BUTTON_NONE /\
  forall polls,
    pollResults polls g' = repeat BUTTON_NONE (length polls) /\
    forall t2,
      toggleState (fst (lirrGetEvents t2 g'))
        = negb (toggleState (remoteEvents g)) /\
      pressTime (fst (lirrGetEvents t2 g')) = t.
Proof.
  intros Hc Hs Hz g'.
  pose proof (decode_events p pin t g) as E.
  rewrite Hc, Hz, (publish_none _ _ _ Hs) in E. fold g' in E.
  split; [rewrite E; reflexivity|]. split; [rewrite E; reflexivity|].
  split; [rewrite E; reflexivity|]. split; [rewrite E; reflexivity|].
  intros polls. split.
  - apply polls_idle; rewrite E; reflexivity.
  - intros t2.
    change (fst (lirrGetEvents t2 g')) with (remoteEvents (pollState t2 g')).
    rewrite poll_toggleState, poll_pressTime, E. split; reflexivity.
Qed.

Lemma C10_zero_code_toggles_unseen_witness :
  let g := pfRun PROTOCOL_SIRC (removelast sircZeroEdges) initialState in
  let g' := decode (PulseFraction PROTOCOL_SIRC) false 17800 g in
  last sircZeroEdges (true, 0) = (false, 17800) /\
  remoteEvents g = Events 0 0 0 BUTTON_NONE false /\
  remoteEvents g' = Events 17800 0 0 BUTTON_NONE true /\
  pollResults [30000; 200000] g' = [BUTTON_NONE; BUTTON_NONE].
Proof.
  intros g g'.
  destruct (C10_zero_code_toggles_unseen (PulseFraction PROTOCOL_SIRC)
              false 17800 g) as (A & B & C & D & E);
    [vm_compute; reflexivity | vm_compute; reflexivity
     | vm_compute; reflexivity |].
  split; [vm_compute; reflexivity|]. split; [vm_compute; reflexivity|].
  split; [vm_compute; reflexivity|].
  apply (E [30000; 200000]).
Defined.

(* ------------------------------------------------------------------ *)
(** ** Sessions: edges and polls interleaved *)

Lemma eqb_negb_self b : Bool.eqb b (negb b) = false.
Proof. destruct b; reflexivity. Qed.

Lemma button_eqb_eq a b : button_eqb a b = true <-> a = b.
Proof. destruct a, b; cbn; split; intros H; congruence. Qed.

(** The ISR changes the Event Record exactly as the decoder call it makes. *)
Lemma ISR_events p now g :
  remoteEvents (ISR p now g) =
  if completesFrame p (Edge now) g
  then publish (incomingCode (ISR p now g)) now (remoteEvents g)
  else remoteEvents g.
Proof.
  unfold ISR. rewrite decode_events. cbn [completesFrame].
  destruct p; reflexivity.
Qed.

(** An event inverts the toggle exactly when it is an edge that completes
    a frame while the Event Record is in state NONE. *)
Lemma step_toggled p e g :
  toggled g (step p e g) =
  completesFrame p e g
  && button_eqb (buttonState (remoteEvents g)) BUTTON_NONE.
Proof.
  unfold toggled. destruct e as [now|now]; cbn [step].
  - rewrite ISR_events. destruct (completesFrame p (Edge now) g); cbn [andb].
    + unfold publish.
      destruct (button_eqb (buttonState (remoteEvents g)) BUTTON_NONE).
      * cbn [toggleState]. rewrite eqb_negb_self. reflexivity.
      * rewrite Bool.eqb_reflx. reflexivity.
    + rewrite Bool.eqb_reflx. reflexivity.
  - rewrite poll_toggleState, Bool.eqb_reflx. reflexivity.
Qed.

Lemma ISR_buttonState p now g :
  buttonState (remoteEvents (ISR p now g)) = buttonState (remoteEvents g).
Proof.
  rewrite ISR_events. destruct (completesFrame p (Edge now) g);
    [apply publish_buttonState | reflexivity].
Qed.

(** One event, when it does not overwrite an unpolled code: an inversion
    of the toggle is a publication, which leaves a code pending unless the
    code is 0; a NONE -> PRESSED transition uses up the pending code. *)
Lemma step_press_balance p e g :
  negb (publishes p e g) || (buttonCode (remoteEvents g) =? 0) = true ->
  (b2n (toggled g (step p e g)) + b2n (pending g)
   = b2n (pressed g (step p e g)) + b2n (pending (step p e g))
     + b2n (publishes p e g
            && (buttonCode (remoteEvents (step p e g)) =? 0)%Z))%nat.
Proof.
  intros H. rewrite step_toggled. fold (publishes p e g).
  destruct e as [now|now]; cbn [step].
  - assert (pressed g (ISR p now g) = false) as P.
    { unfold pressed. rewrite ISR_buttonState.
      destruct (buttonState (remoteEvents g)); reflexivity. }
    rewrite P. unfold pending. rewrite ISR_buttonState, ISR_events.
    unfold publishes in *.
    destruct (completesFrame p (Edge now) g); cbn [andb negb orb] in *.
    + destruct (button_eqb (buttonState (remoteEvents g)) BUTTON_NONE) eqn:E;
        cbn [andb negb orb] in *.
      * rewrite H. apply button_eqb_eq in E.
        rewrite (publish_none _ _ _ E). cbn [buttonCode].
        destruct (incomingCode (ISR p now g) =? 0); reflexivity.
      * reflexivity.
    + destruct (button_eqb _ _); destruct (negb _); cbn; lia.
  - unfold publishes, pressed, pending. cbn [completesFrame andb].
    destruct g as [r a [pt ct bc [] ts] n1 n2 bt ps];
      unfold pollState, lirrGetEvents, fetchCode;
      cbn [fst snd remoteEvents setRemoteEvents referenceTime buttonState
           buttonCode pressTime curTime toggleState button_eqb andb].
    + destruct (bc =? 0) eqn:E; cbn [negb buttonState buttonCode button_eqb andb];
        rewrite ?E; reflexivity.
    + reflexivity.
    + destruct (_ >? _); reflexivity.
    + reflexivity.
Qed.

(** The toggle is not inverted once per press.  A frame with the code 0
    inverts it although no poll ever reports a press ([zeroSession]); and
    with two SIRC frames completing before the first poll it is inverted
    twice for the one NONE -> PRESSED transition the poll then makes, and
    is back at its value from before the press ([heldSession]). *)
Lemma C4_toggle_not_once_per_press_counterexample :
  let p := PulseFraction PROTOCOL_SIRC in
  (pressTransitions p zeroSession initialState = 0%nat /\
   toggleFlips p zeroSession initialState = 1%nat) /\
  pressTransitions p heldSession initialState = 1%nat /\
  toggleFlips p heldSession initialState = 2%nat /\
  noOverwrite p heldSession initialState = false /\
  buttonState (remoteEvents (run p heldSession initialState)) = BUTTON_PRESSED /\
  toggleState (remoteEvents (run p heldSession initialState))
    = toggleState (remoteEvents initialState).
Proof. vm_compute. repeat split. Qed.

(** C4 (amended): over any interleaving of edge-handler invocations and
    polls in which no frame is published over a code that no poll has
    picked up yet, the toggle flag is inverted exactly once per logical
    press: the inversions are the NONE -> PRESSED transitions observed by
    the polls, plus the press whose code is still waiting for its poll at
    the end (less the one waiting at the start), plus the frames published
    with the code 0, which no poll reports.  With no code waiting at
    either end and no code 0, inversions and NONE -> PRESSED transitions
    are equal in number.  The flag is never inverted by a poll, nor by a
    frame that completes while the state is PRESSED, HELD or RELEASED. *)
Theorem C4_toggle_once_per_press p tr :
  forall g,
    noOverwrite p tr g = true ->
    (toggleFlips p tr g + b2n (pending g)
     = pressTransitions p tr g + b2n (pending (run p tr g))
       + zeroPublications p tr g)%nat /\
    (pending g = false -> pending (run p tr g) = false ->
     zeroPublications p tr g = 0%nat ->
     toggleFlips p tr g = pressTransitions p tr g) /\
    (forall e, buttonState (remoteEvents g) <> BUTTON_NONE ->
               toggled g (step p e g) = false) /\
    (forall t, toggled g (step p (Poll t) g) = false).
Proof.
  assert (forall g, noOverwrite p tr g = true ->
            (toggleFlips p tr g + b2n (pending g)
             = pressTransitions p tr g + b2n (pending (run p tr g))
               + zeroPublications p tr g)%nat) as Balance.
  { induction tr as [|e tr IH]; intros g H; [cbn; lia|].
    cbn [noOverwrite] in H. apply andb_true_iff in H as [H1 H2].
    change (run p (e :: tr) g) with (run p tr (step p e g)).
    cbn [pressTransitions toggleFlips zeroPublications].
    pose proof (IH (step p e g) H2). pose proof (step_press_balance p e g H1).
    lia. }
  intros g H. split; [exact (Balance g H)|]. split; [|split].
  - intros P0 P1 Z. pose proof (Balance g H) as B.
    rewrite P0, P1, Z in B. cbn in B. lia.
  - intros e Hs. rewrite step_toggled.
    destruct (buttonState (remoteEvents g)); try congruence;
      apply andb_false_r.
  - intros t. rewrite step_toggled. reflexivity.
Qed.

Lemma C4_toggle_once_per_press_witness :
  let p := PulseFraction PROTOCOL_SIRC in
  noOverwrite p twoPresses initialState = true /\
  toggleFlips p twoPresses initialState = 2%nat /\
  pressTransitions p twoPresses initialState = 2%nat.
Proof.
  intros p.
  destruct (C4_toggle_once_per_press p twoPresses initialState)
    as (_ & E & _); [vm_compute; reflexivity|].
  split; [vm_compute; reflexivity|].
  split; [|vm_compute; reflexivity].
  rewrite E; vm_compute; reflexivity.
Defined.

(* ------------------------------------------------------------------ *)
(** ** The toggle position of a bi-phase frame *)

Section BiPhaseInvariant.
Variable s : BP.t.

Lemma testbit_add_shl32 a n k :
  Z.testbit a n = false ->
  Z.testbit (wrap32 (a + shl32 n)) k =
  if k <? 0 then false
  else (k <? 32) && (Z.testbit a k || (k =? n)).
Proof.
  intros Ha. destruct (Z.ltb_spec k 0) as [Hneg|Hk].
  - apply Z.testbit_neg_r. exact Hneg.
  - rewrite add_clear_bit by exact Ha.
    rewrite testbit_wrap32, Z.lor_spec, testbit_shl32 by assumption.
    destruct (k <? 32), (Z.testbit a k), (k =? n); reflexivity.
Qed.

Lemma bpInv_initial : bpInv s initialState.
Proof.
  unfold bpInv. cbn. rewrite !Z.bits_0. repeat split.
  intros k _. apply Z.bits_0.
Qed.

Lemma bpInv_startCheck pin t g :
  bpInv s g -> bpInv s (bpStartCheck s pin t (setBpBitsRemaining 0 g)).
Proof.
  intros (A & B & C). unfold bpStartCheck, bpInv. destruct pin; cbn.
  - rewrite Z.bits_0. repeat split; [exact B|]. intros k _. apply Z.bits_0.
  - repeat split; [exact A | exact B |]. intros k Hk.
    apply Z.testbit_neg_r. exact Hk.
Qed.

Lemma bpInv_decode pin t g :
  bpInv s g -> bpInv s (biPhaseDecode s pin t g).
Proof.
  intros I. destruct (bp_cases s t g) as [H|[H|[[Hn H]|[Hn H]]]].
  - rewrite (bp_step_restart s pin t g (or_introl H)).
    apply bpInv_startCheck. exact I.
  - rewrite (bp_step_restart s pin t g (or_intror H)).
    apply bpInv_startCheck. exact I.
  - rewrite (bp_step_early s pin t g Hn H). exact I.
  - destruct I as (A & B & C).
    destruct (bp_step_mid s pin t g Hn H) as (_ & N & Acc & Ev & _).
    cbn zeta in N, Acc, Ev. set (g' := biPhaseDecode s pin t g) in *.
    set (n := bpBitsRemaining g - 1) in *.
    assert (Z.testbit (incomingCode g) n = false) as Hclear
      by (apply C; unfold n; lia).
    assert (Z.testbit (incomingCode g') (BP.togglePos s) = false) as A'.
    { rewrite Acc.
      destruct (Bool.eqb pin (BP.aceRising s)); cbn [andb]; [|exact A].
      destruct (Z.eqb_spec n (BP.togglePos s)) as [E|E]; cbn [negb]; [exact A|].
      rewrite (testbit_add_shl32 _ _ _ Hclear), A.
      replace (BP.togglePos s =? n) with false
        by (symmetry; apply Z.eqb_neq; congruence).
      destruct (_ <? 0); [reflexivity|]. apply andb_false_r. }
    unfold bpInv. split; [exact A'|]. split.
    + rewrite Ev. destruct (n =? 0); [|exact B].
      unfold publish. destruct (button_eqb _ _); [exact A' | exact B].
    + intros k Hk. rewrite N in Hk. rewrite Acc.
      assert (Z.testbit (incomingCode g) k = false) as Hk'
        by (apply C; unfold n in Hk; lia).
      destruct (_ && _); [|exact Hk'].
      rewrite (testbit_add_shl32 _ _ _ Hclear), Hk'.
      replace (k =? n) with false by (symmetry; apply Z.eqb_neq; lia).
      destruct (_ <? 0); [reflexivity|]. apply andb_false_r.
Qed.

Lemma bpInv_setIsrPinState b g : bpInv s g -> bpInv s (setIsrPinState b g).
Proof. intros I. exact I. Qed.

Lemma bpInv_poll t g : bpInv s g -> bpInv s (pollState t g).
Proof.
  intros (A & B & C). unfold bpInv.
  split; [exact A|]. split; [|exact C].
  destruct (poll_code_cases t g) as [E|E]; rewrite E;
    [exact B | apply Z.bits_0].
Qed.

Lemma bpInv_run tr : forall g, bpInv s g -> bpInv s (run (BiPhase s) tr g).
Proof.
  induction tr as [|e tr IH]; intros g I; [exact I|].
  cbn [run fold_left]. apply IH. destruct e as [t|t]; cbn [step].
  - unfold ISR. cbn [decode]. apply bpInv_decode, bpInv_setIsrPinState, I.
  - apply bpInv_poll, I.
Qed.
End BiPhaseInvariant.

(** C7: in every state a bi-phase session reaches, bit [togglePos] of the
    accumulator and of the published code is 0; a mid-bit edge at the
    toggle position leaves the accumulator as it was whatever its level,
    also when the level matches [aceRising]; what the toggle position
    decides is the timing pair selected after a bit: the toggle pair when
    the bits remaining equal [togglePos] or [togglePos + 1], the ordinary
    pair otherwise. *)
Theorem C7_toggle_position_never_accumulated s :
  (forall tr,
     let g := run (BiPhase s) tr initialState in
     Z.testbit (incomingCode g) (BP.togglePos s) = false /\
     Z.testbit (buttonCode (remoteEvents g)) (BP.togglePos s) = false) /\
  (forall pin t g,
     bpBitsRemaining g <> 0 -> bpIsMid s t g = true ->
     bpBitsRemaining g - 1 = BP.togglePos s ->
     incomingCode (biPhaseDecode s pin t g) = incomingCode g) /\
  (forall pin t g,
     bpBitsRemaining g <> 0 -> bpIsMid s t g = true ->
     bpBitsRemaining g - 1 <> 0 ->
     bpBitTime (biPhaseDecode s pin t g) =
     if (bpBitsRemaining g - 1 =? BP.togglePos s + 1)
        || (bpBitsRemaining g - 1 =? BP.togglePos s)
     then PtrToggleTime else PtrBitTime).
Proof.
  split; [|split].
  - intros tr g.
    destruct (bpInv_run s tr initialState (bpInv_initial s)) as (A & B & _).
    split; assumption.
  - intros pin t g Hn Hm Ht.
    destruct (bp_step_mid s pin t g Hn Hm) as (_ & _ & Acc & _).
    cbn zeta in Acc. rewrite Acc, Ht, Z.eqb_refl, andb_false_r. reflexivity.
  - intros pin t g Hn Hm Hl.
    destruct (bp_step_mid s pin t g Hn Hm) as (_ & _ & _ & _ & P & _).
    cbn zeta in P. rewrite P. apply Z.eqb_neq in Hl. rewrite Hl. reflexivity.
Qed.

Lemma C7_toggle_position_never_accumulated_witness :
  let g := run (BiPhase PROTOCOL_RC5) (edgeEvents rc5RisingEdges) initialState in
  let g11 := State 0 4096 (Events 0 0 0 BUTTON_NONE false) 0 12 PtrBitTime false in
  buttonCode (remoteEvents g) = 6143 /\
  Z.testbit (buttonCode (remoteEvents g)) 11 = false /\
  incomingCode (biPhaseDecode PROTOCOL_RC5 true 1778 g11) = 4096 /\
  bpBitTime (biPhaseDecode PROTOCOL_RC5 true 1778 g11) = PtrToggleTime.
Proof.
  intros g g11.
  destruct (C7_toggle_position_never_accumulated PROTOCOL_RC5) as (A & B & C).
  split; [vm_compute; reflexivity|]. split; [|split].
  - apply (A (edgeEvents rc5RisingEdges)).
  - apply (B true 1778 g11); [discriminate | reflexivity | reflexivity].
  - rewrite (C true 1778 g11); [reflexivity | discriminate | reflexivity
                               | discriminate].
Defined.

(* ------------------------------------------------------------------ *)
(** ** Elapsed time and counter overflow *)

Lemma sub32_shift k a b : sub32 (shiftTime k a) (shiftTime k b) = sub32 a b.
Proof.
  unfold sub32, shiftTime, wrap32. rewrite <- Zminus_mod. f_equal. lia.
Qed.

Lemma sub32_true_elapsed T0 T1 :
  0 <= T1 - T0 < 2 ^ 32 -> sub32 (wrap32 T1) (wrap32 T0) = T1 - T0.
Proof.
  intros H. unfold sub32, wrap32. rewrite <- Zminus_mod.
  apply Z.mod_small. exact H.
Qed.

Lemma publish_shift k code t ev :
  publish code (shiftTime k t) (shiftEvents k ev)
  = shiftEvents k (publish code t ev).
Proof. destruct ev as [? ? ? [] ?]; reflexivity. Qed.

Ltac split_ifs :=
  repeat match goal with
         | |- context [if ?c then _ else _] => destruct c eqn:?
         end.

Lemma pulseFractionDecode_shift k s pin t g :
  pulseFractionDecode s pin (shiftTime k t) (shiftState k g)
  = shiftState k (pulseFractionDecode s pin t g).
Proof.
  unfold pulseFractionDecode, pfStartCheck.
  cbn [referenceTime shiftState pfBitsRemaining setReferenceTime incomingCode
       remoteEvents setPfBitsRemaining setIncomingCode].
  rewrite sub32_shift.
  destruct (Bool.eqb pin (PF.distanceMode s));
    [|destruct (PF.distanceMode s); reflexivity].
  destruct (pfBitsRemaining g =? 0).
  - destruct (_ || _); reflexivity.
  - destruct (_ && _).
    + destruct (sub32 t (referenceTime g) >? PF.bitSep s);
        destruct (pfBitsRemaining g - 1 =? 0);
        cbn [setRemoteEvents setIncomingCode setPfBitsRemaining
             setReferenceTime referenceTime incomingCode remoteEvents
             pfBitsRemaining bpBitsRemaining bpBitTime isrPinState shiftState];
        rewrite ?publish_shift; reflexivity.
    + destruct (_ || _); reflexivity.
Qed.

Lemma biPhaseDecode_shift k s pin t g :
  biPhaseDecode s pin (shiftTime k t) (shiftState k g)
  = shiftState k (biPhaseDecode s pin t g).
Proof.
  unfold biPhaseDecode, bpStartCheck.
  cbn [referenceTime shiftState bpBitsRemaining bpBitTime].
  rewrite sub32_shift.
  destruct (bpBitsRemaining g =? 0); [destruct pin; reflexivity|].
  destruct (_ <? _); [|destruct pin; reflexivity].
  destruct (_ >? _); [|reflexivity].
  cbn [setReferenceTime setBpBitsRemaining setIncomingCode setRemoteEvents
       setBpBitTime referenceTime incomingCode remoteEvents pfBitsRemaining
       bpBitsRemaining bpBitTime isrPinState shiftState].
  destruct (Bool.eqb pin (BP.aceRising s));
    destruct (negb (bpBitsRemaining g - 1 =? BP.togglePos s));
    destruct (bpBitsRemaining g - 1 =? 0);
    destruct (negb (bpBitsRemaining g - 1 =? BP.togglePos s + 1));
    cbn [andb setReferenceTime setBpBitsRemaining setIncomingCode
         setRemoteEvents setBpBitTime referenceTime incomingCode remoteEvents
         pfBitsRemaining bpBitsRemaining bpBitTime isrPinState shiftState];
    rewrite ?publish_shift; reflexivity.
Qed.

Lemma lirrGetEvents_shift k t g :
  lirrGetEvents (shiftTime k t) (shiftState k g)
  = (shiftEvents k (fst (lirrGetEvents t g)),
     shiftState k (snd (lirrGetEvents t g))).
Proof.
  unfold lirrGetEvents, fetchCode.
  cbn [referenceTime shiftState remoteEvents shiftEvents pressTime curTime
       buttonCode buttonState toggleState].
  rewrite sub32_shift.
  destruct (buttonState (remoteEvents g));
    cbn [pressTime curTime buttonCode buttonState toggleState];
    split_ifs; reflexivity.
Qed.

Lemma gtb_irrefl x : (x >? x) = false.
Proof. rewrite Z.gtb_ltb. apply Z.ltb_irrefl. Qed.

(** C9: elapsed times are differences modulo 2^32, so they equal the true
    distance between two instants less than 2^32 microseconds apart
    wherever the counter wraps; the decoders and the poll therefore act
    the same on a session moved along the clock by any amount [k] (every
    stored and read timestamp moved, every decision and code unchanged).
    Each comparison of an elapsed time is strict: an interval equal to
    bitMin or bitMax is no bit, one equal to bitSep is a 0-bit, one equal
    to startMin or startMax is no start; a bi-phase edge exactly at the
    upper bound aborts, one exactly at the lower bound is ignored; a
    silence of exactly the repeat interval does not release.  The release
    check is this comparison and nothing else: in state HELD a poll
    returns RELEASED when the poll time minus the reference time, modulo
    2^32, exceeds the repeat interval, and HELD otherwise. *)
Theorem C9_elapsed_time_modular_and_strict :
  (forall T0 T1, 0 <= T1 - T0 < 2 ^ 32 ->
     sub32 (wrap32 T1) (wrap32 T0) = T1 - T0) /\
  (forall k p pin t g,
     decode p pin (shiftTime k t) (shiftState k g)
     = shiftState k (decode p pin t g)) /\
  (forall k t g,
     lirrGetEvents (shiftTime k t) (shiftState k g)
     = (shiftEvents k (fst (lirrGetEvents t g)),
        shiftState k (snd (lirrGetEvents t g)))) /\
  (forall s t g,
     let m := sub32 t (referenceTime g) in
     let g' := pulseFractionDecode s (PF.distanceMode s) t g in
     (pfBitsRemaining g <> 0 -> m = PF.bitMin s \/ m = PF.bitMax s ->
      pfBitsRemaining g' = if pfStartOK s m then PF.bits s else 0) /\
     (pfBitsRemaining g <> 0 -> pfInBounds s m = true -> m = PF.bitSep s ->
      incomingCode g' = incomingCode g) /\
     (pfBitsRemaining g = 0 -> PF.startMax s <> 0 ->
      m = PF.startMin s \/ m = PF.startMax s ->
      pfBitsRemaining g' = 0)) /\
  (forall s pin t g,
     let m := sub32 t (referenceTime g) in
     (bpBitsRemaining g <> 0 -> m = snd (bpWindow s g) ->
      biPhaseDecode s pin t g
      = bpStartCheck s pin t (setBpBitsRemaining 0 g)) /\
     (bpBitsRemaining g <> 0 -> m = fst (bpWindow s g) ->
      m < snd (bpWindow s g) ->
      biPhaseDecode s pin t g = g)) /\
  (forall t g,
     buttonState (remoteEvents g) = BUTTON_HELD ->
     sub32 t (referenceTime g) = repeatInt ->
     pollResult t g = BUTTON_HELD) /\
  (forall t g,
     buttonState (remoteEvents g) = BUTTON_HELD ->
     pollResult t g =
     if sub32 t (referenceTime g) >? repeatInt
     then BUTTON_RELEASED else BUTTON_HELD).
Proof.
  split; [exact sub32_true_elapsed|].
  split; [|split; [|split; [|split; [|split]]]].
  - intros k [s|s] pin t g; cbn [decode];
      [apply pulseFractionDecode_shift | apply biPhaseDecode_shift].
  - exact lirrGetEvents_shift.
  - intros s t g m g'. split; [|split].
    + intros Hn Hm.
      assert (pfInBounds s m = false) as Hb.
      { unfold pfInBounds. destruct Hm as [-> | ->].
        - rewrite gtb_irrefl. reflexivity.
        - rewrite Z.ltb_irrefl. apply andb_false_r. }
      destruct (pfStartOK s m) eqn:Hs.
      * apply (pf_step_start s t g (or_intror Hb) Hs).
      * apply (pf_step_nostart s t g (or_intror Hb) Hs).
    + intros Hn Hb Hm.
      destruct (pf_step_bit s t g Hn Hb) as (_ & A & _).
      cbn zeta in A. fold m g' in A. rewrite A, Hm, gtb_irrefl. reflexivity.
    + intros Hz Hmax Hm.
      assert (pfStartOK s m = false) as Hs.
      { unfold pfStartOK. apply Z.eqb_neq in Hmax. rewrite Hmax, orb_false_r.
        destruct Hm as [-> | ->].
        - rewrite gtb_irrefl. apply andb_false_r.
        - rewrite Z.ltb_irrefl. reflexivity. }
      apply (pf_step_nostart s t g (or_introl Hz) Hs).
  - intros s pin t g m. split.
    + intros Hn Hm. apply bp_step_restart. right.
      unfold bpIsLate. fold m. rewrite Hm, Z.ltb_irrefl. reflexivity.
    + intros Hn Hm Hlt. apply bp_step_early; [exact Hn|].
      unfold bpIsEarly. fold m. apply Z.ltb_lt in Hlt. rewrite Hlt.
      rewrite Hm, gtb_irrefl. reflexivity.
  - intros t g Hs Hm. rewrite poll_result_state.
    destruct (poll_held t g Hs) as [A _]. rewrite A, Hm. reflexivity.
  - intros t g Hs. rewrite poll_result_state.
    destruct (poll_held t g Hs) as [A _]. exact A.
Qed.

Lemma C9_elapsed_time_modular_and_strict_witness :
  sub32 (wrap32 (2 ^ 32 + 300)) (wrap32 (2 ^ 32 - 500)) = 800 /\
  wrap32 (2 ^ 32 + 300) < wrap32 (2 ^ 32 - 500) /\
  pollResult 100000
    (State 0 0 (Events 0 0 5 BUTTON_HELD false) 0 0 PtrNull false)
  = BUTTON_HELD /\
  pollResult 100000
    (State (2 ^ 32 - 500) 0 (Events 0 0 5 BUTTON_HELD false) 0 0 PtrNull false)
  = BUTTON_RELEASED /\
  pollResult 99000
    (State (2 ^ 32 - 500) 0 (Events 0 0 5 BUTTON_HELD false) 0 0 PtrNull false)
  = BUTTON_HELD.
Proof.
  destruct C9_elapsed_time_modular_and_strict as (A & _ & _ & _ & _ & P & R).
  split; [|split; [|split; [|split]]].
  - rewrite (A (2 ^ 32 - 500) (2 ^ 32 + 300)); [reflexivity | lia].
  - vm_compute. reflexivity.
  - apply P; reflexivity.
  - rewrite R; [vm_compute; reflexivity | reflexivity].
  - rewrite R; [vm_compute; reflexivity | reflexivity].
Defined.

(* ------------------------------------------------------------------ *)
(** ** A whole bi-phase frame *)

Section BiPhaseRun.
Variable s : BP.t.

Lemma bpRun_app e1 e2 g : bpRun s (e1 ++ e2) g = bpRun s e2 (bpRun s e1 g).
Proof. unfold bpRun. apply fold_left_app. Qed.

Lemma length_bpPattern syms : length (bpPattern s syms) = length syms.
Proof. induction syms as [|x r IH]; cbn; congruence. Qed.

(** Edges before the middle of a bit leave the state as it is. *)
Lemma bp_early_edges pre : forall g,
  bpBitsRemaining g <> 0 ->
  forallb (fun e => (sub32 (snd e) (referenceTime g) <? snd (bpWindow s g))
                    && negb (sub32 (snd e) (referenceTime g) >? fst (bpWindow s g)))
          pre = true ->
  bpRun s pre g = g.
Proof.
  induction pre as [|[p t] pre IH]; intros g Hn H; [reflexivity|].
  cbn [forallb] in H. apply andb_true_iff in H as [H1 H2].
  cbn [bpRun fold_left fst snd].
  rewrite (bp_step_early s p t g Hn H1). apply IH; assumption.
Qed.

Lemma bpPtrAt_below n : n <> BP.bits s -> bpPtrAt s n = bpNextPtr s n.
Proof.
  intros H. unfold bpPtrAt. apply Z.eqb_neq in H. rewrite H. reflexivity.
Qed.

(** The bits of a frame: with [length syms] bits still to come, the
    matching window in force and the positions to come clear in the
    accumulator, a well-timed run ends with no bit remaining and has set
    exactly the bits of the pattern. *)
Lemma bp_frame_bits syms : forall g,
  bpBitsRemaining g = Z.of_nat (length syms) ->
  Z.of_nat (length syms) <= BP.bits s ->
  (syms <> [] -> bpBitTime g = bpPtrAt s (Z.of_nat (length syms))) ->
  bpFrameOK s (referenceTime g) syms = true ->
  (forall k, k < Z.of_nat (length syms) -> Z.testbit (incomingCode g) k = false) ->
  (forall k, 32 <= k -> Z.testbit (incomingCode g) k = false) ->
  let g' := bpRun s (bpSymbolEdges syms) g in
  bpBitsRemaining g' = 0 /\
  (forall k, 0 <= k ->
     Z.testbit (incomingCode g') k =
     Z.testbit (incomingCode g) k
     || ((k <? 32) && Z.testbit (msbFirst (bpPattern s syms)) k)) /\
  (syms <> [] ->
   exists t, remoteEvents g' = publish (incomingCode g') t (remoteEvents g)).
Proof.
  induction syms as [|[pre [pin t]] syms IH]; intros g Hn Hle Hp Hok Hlow Hhigh.
  - cbn. repeat split.
    + exact Hn.
    + intros k Hk. rewrite Z.bits_0, andb_false_r, orb_false_r. reflexivity.
    + intros C. contradiction.
  - cbn [bpSymbolEdges flat_map fst snd]. fold (bpSymbolEdges syms).
    rewrite !bpRun_app. cbn zeta.
    specialize (Hp ltac:(discriminate)).
    cbn [bpFrameOK fst snd] in Hok.
    apply andb_true_iff in Hok as [Hok Hrest].
    apply andb_true_iff in Hok as [Hpre Hmid].
    rewrite <- Hp in Hpre, Hmid.
    assert (bpBitsRemaining g <> 0) as Hnz by (rewrite Hn; cbn [length]; lia).
    rewrite (bp_early_edges pre g Hnz Hpre).
    cbn [bpRun fold_left fst snd] in *.
    destruct (bp_step_mid s pin t g Hnz Hmid) as (R & N & A & E & P & _).
    cbn zeta in R, N, A, E, P.
    set (g1 := biPhaseDecode s pin t g) in *.
    replace (bpBitsRemaining g - 1) with (Z.of_nat (length syms)) in *
      by (rewrite Hn; cbn [length]; lia).
    set (n := Z.of_nat (length syms)) in *.
    assert (Z.testbit (incomingCode g) n = false) as Hclear
      by (apply Hlow; cbn [length]; lia).
    assert (forall k, 0 <= k ->
              Z.testbit (incomingCode g1) k =
              Z.testbit (incomingCode g) k
              || ((k <? 32)
                  && ((k =? n) && (Bool.eqb pin (BP.aceRising s)
                                   && negb (n =? BP.togglePos s))))) as A1.
    { intros k Hk. rewrite A.
      destruct (Bool.eqb pin (BP.aceRising s) && negb (n =? BP.togglePos s)).
      - rewrite (testbit_add_shl32 _ _ _ Hclear).
        replace (k <? 0) with false by (symmetry; apply Z.ltb_ge; exact Hk).
        destruct (Z.ltb_spec k 32) as [H32|H32].
        + rewrite andb_true_r. reflexivity.
        + rewrite (Hhigh k H32). reflexivity.
      - rewrite andb_false_r, andb_false_r, orb_false_r. reflexivity. }
    destruct (IH g1) as (I1 & I2 & I3).
    + exact N.
    + cbn [length] in Hle. lia.
    + intros Hne. rewrite P.
      replace (n =? 0) with false
        by (symmetry; apply Z.eqb_neq; unfold n; destruct syms;
            [contradiction | cbn [length]; lia]).
      symmetry. apply bpPtrAt_below. cbn [length] in Hle. unfold n in *. lia.
    + rewrite R. exact Hrest.
    + intros k Hk. destruct (Z.lt_ge_cases k 0) as [Hneg|Hpos];
        [apply Z.testbit_neg_r; exact Hneg|].
      rewrite (A1 k Hpos), (Hlow k) by (cbn [length]; lia).
      replace (k =? n) with false by (symmetry; apply Z.eqb_neq; lia).
      rewrite andb_false_r. reflexivity.
    + intros k Hk. rewrite (A1 k) by lia. rewrite (Hhigh k Hk).
      replace (k <? 32) with false by (symmetry; apply Z.ltb_ge; exact Hk).
      reflexivity.
    + split; [exact I1|]. split.
      * intros k Hk. rewrite (I2 k Hk), (A1 k Hk).
        cbn [bpPattern fst snd]. rewrite testbit_msbFirst_cons by exact Hk.
        rewrite length_bpPattern. fold n.
        destruct (Z.testbit (incomingCode g) k), (k <? 32), (k =? n),
          (Bool.eqb pin (BP.aceRising s) && negb (n =? BP.togglePos s)),
          (Z.testbit (msbFirst (bpPattern s syms)) k); reflexivity.
      * intros _. destruct syms as [|x r].
        -- exists t. cbn [bpSymbolEdges flat_map bpRun fold_left].
           rewrite E. reflexivity.
        -- destruct I3 as [t' Ht']; [discriminate|].
           exists t'. rewrite Ht'. f_equal. rewrite E.
           replace (n =? 0) with false; [reflexivity|].
           symmetry. apply Z.eqb_neq. unfold n. cbn [length]. lia.
Qed.

(** A rising edge that the decoder takes as a start (it is idle, or the
    edge comes at or above the upper bound and so aborts whatever was in
    progress), followed by the well-timed bits of a frame. *)
Lemma bp_frame g t0 syms :
  bpBitsRemaining g = 0 \/ bpIsLate s t0 g = true ->
  Z.of_nat (length syms) = BP.bits s ->
  bpFrameOK s t0 syms = true ->
  let g' := bpRun s ((true, t0) :: bpSymbolEdges syms) g in
  bpBitsRemaining g' = 0 /\
  incomingCode g' = wrap32 (msbFirst (bpPattern s syms)) /\
  (syms <> [] ->
   exists t, remoteEvents g' = publish (incomingCode g') t (remoteEvents g)).
Proof.
  intros Hstart Hlen Hok.
  change (bpRun s ((true, t0) :: bpSymbolEdges syms) g)
    with (bpRun s (bpSymbolEdges syms) (biPhaseDecode s true t0 g)).
  rewrite (bp_step_restart s true t0 g Hstart). unfold bpStartCheck.
  set (g1 := setReferenceTime t0 _).
  destruct (bp_frame_bits syms g1) as (F1 & F2 & F3).
  - cbn. symmetry. exact Hlen.
  - lia.
  - intros _. cbn. unfold bpPtrAt. rewrite Hlen, Z.eqb_refl. reflexivity.
  - exact Hok.
  - intros k _. cbn. apply Z.bits_0.
  - intros k _. cbn. apply Z.bits_0.
  - cbn zeta in F1, F2, F3. split; [exact F1|]. split; [|exact F3].
    apply Z.bits_inj'. intros k Hk.
    rewrite (F2 k Hk), testbit_wrap32 by exact Hk.
    unfold g1. cbn [incomingCode setReferenceTime setBpBitTime setIncomingCode].
    rewrite Z.bits_0. reflexivity.
Qed.
End BiPhaseRun.

(* ------------------------------------------------------------------ *)
(** ** Timing violations *)

(** The bits of a pulse-fraction frame, from a freshly started frame. *)
Lemma pf_frame_from_start s edges g ivs :
  pfIntervals s (referenceTime g) edges = ivs ->
  pfBitsRemaining g = PF.bits s ->
  incomingCode g = 0 ->
  Z.of_nat (length ivs) = PF.bits s ->
  Forall (fun m => pfInBounds s m = true) ivs ->
  pfBitsRemaining (pfRun s edges g) = 0 /\
  incomingCode (pfRun s edges g) = wrap32 (msbFirst (pfPattern s ivs)).
Proof.
  intros Hiv Hn Ha Hlen Hb.
  destruct (pf_frame_bits s ivs edges g Hiv) as (F1 & F2 & _);
    [rewrite Hn; symmetry; exact Hlen | exact Hb |].
  cbn zeta in F1, F2. split; [exact F1|].
  apply Z.bits_inj'. intros k Hk.
  rewrite (F2 k Hk), Ha, Z.bits_0, testbit_wrap32 by assumption. reflexivity.
Qed.

(** The bits of a bi-phase frame, from a freshly started frame. *)
Lemma bp_frame_from_start s g syms :
  bpBitsRemaining g = BP.bits s ->
  bpBitTime g = PtrStartTime ->
  incomingCode g = 0 ->
  Z.of_nat (length syms) = BP.bits s ->
  bpFrameOK s (referenceTime g) syms = true ->
  bpBitsRemaining (bpRun s (bpSymbolEdges syms) g) = 0 /\
  incomingCode (bpRun s (bpSymbolEdges syms) g)
    = wrap32 (msbFirst (bpPattern s syms)).
Proof.
  intros Hn Hp Ha Hlen Hok.
  destruct (bp_frame_bits s syms g) as (F1 & F2 & _).
  - rewrite Hn. symmetry. exact Hlen.
  - lia.
  - intros _. rewrite Hp. unfold bpPtrAt. rewrite Hlen, Z.eqb_refl. reflexivity.
  - exact Hok.
  - intros k _. rewrite Ha. apply Z.bits_0.
  - intros k _. rewrite Ha. apply Z.bits_0.
  - cbn zeta in F1, F2. split; [exact F1|].
    apply Z.bits_inj'. intros k Hk.
    rewrite (F2 k Hk), Ha, Z.bits_0, testbit_wrap32 by assumption. reflexivity.
Qed.

(** After a violation bits-remaining need not be 0, and the next valid
    start followed by in-bounds bit intervals need not be decoded to its
    code, where a start interval is also a bit interval: in the scenario,
    the violation (300) restarts the frame on its own edge, bits-remaining
    is 4 after it, and the following frame (start 800, bits 0001) is not
    decoded as 1: its start interval is taken as a 1-bit, the code 8 is
    published after its third bit interval, and its last interval starts
    yet another frame. *)
Lemma C5_next_frame_misframed_counterexample :
  let s := scenarioSettings in
  let g := pfRun s violationPrefix initialState in
  let g1 := pulseFractionDecode s true 1900 g in
  let g' := pfRun s followingFrame g1 in
  pfBitsRemaining g = 3 /\
  pfInBounds s (sub32 1900 (referenceTime g)) = false /\
  pfBitsRemaining g1 = 4 /\
  pfIntervals s (referenceTime g1) followingFrame = [800; 500; 500; 500; 800] /\
  pfStartOK s 800 = true /\
  forallb (pfInBounds s) [500; 500; 500; 800] = true /\
  msbFirst (pfPattern s [500; 500; 500; 800]) = 1 /\
  incomingCode g' = 0 /\
  pfBitsRemaining g' = 4 /\
  buttonCode (remoteEvents g') = 8.
Proof. vm_compute. repeat split. Qed.

(** C5 (amended): a measuring interval outside the bit window
    (pulse-fraction) or an edge at or above the upper bound of the window
    in force (bi-phase) drops the frame in progress without changing any
    Event Record field and without any error; the same edge then goes
    through the start check, so the decoder is left idle (no bit
    remaining, accumulator kept), or, when the edge passes the check
    (valid start interval or start checking disabled; rising edge), at the
    beginning of a new frame (all bits remaining, accumulator 0).  The
    next well-formed frame is decoded to its most-significant-bit-first
    code, whatever the aborted frame had accumulated, when its start edge
    is taken as a start: the decoder is idle, or the start edge is itself
    outside the bit window; and so is the frame that the violating edge
    itself starts. *)
Theorem C5_violation_aborts_and_recovers :
  (forall s t g,
     pfBitsRemaining g <> 0 ->
     pfInBounds s (sub32 t (referenceTime g)) = false ->
     let g1 := pulseFractionDecode s (PF.distanceMode s) t g in
     remoteEvents g1 = remoteEvents g /\
     pfView g1 = (if pfStartOK s (sub32 t (referenceTime g))
                  then (PF.bits s, 0) else (0, incomingCode g)) /\
     (forall edges start ivs,
        pfIntervals s (referenceTime g1) edges = start :: ivs ->
        pfBitsRemaining g1 = 0 \/ pfInBounds s start = false ->
        pfStartOK s start = true ->
        Z.of_nat (length ivs) = PF.bits s ->
        Forall (fun m => pfInBounds s m = true) ivs ->
        pfBitsRemaining (pfRun s edges g1) = 0 /\
        incomingCode (pfRun s edges g1) = wrap32 (msbFirst (pfPattern s ivs))) /\
     (forall edges ivs,
        pfStartOK s (sub32 t (referenceTime g)) = true ->
        pfIntervals s (referenceTime g1) edges = ivs ->
        Z.of_nat (length ivs) = PF.bits s ->
        Forall (fun m => pfInBounds s m = true) ivs ->
        pfBitsRemaining (pfRun s edges g1) = 0 /\
        incomingCode (pfRun s edges g1) = wrap32 (msbFirst (pfPattern s ivs)))) /\
  (forall s pin t g,
     bpBitsRemaining g <> 0 ->
     bpIsLate s t g = true ->
     let g1 := biPhaseDecode s pin t g in
     remoteEvents g1 = remoteEvents g /\
     bpBitsRemaining g1 = (if pin then BP.bits s else 0) /\
     incomingCode g1 = (if pin then 0 else incomingCode g) /\
     (forall t0 syms,
        bpBitsRemaining g1 = 0 \/ bpIsLate s t0 g1 = true ->
        Z.of_nat (length syms) = BP.bits s ->
        bpFrameOK s t0 syms = true ->
        let g' := bpRun s ((true, t0) :: bpSymbolEdges syms) g1 in
        bpBitsRemaining g' = 0 /\
        incomingCode g' = wrap32 (msbFirst (bpPattern s syms))) /\
     (forall syms,
        pin = true ->
        Z.of_nat (length syms) = BP.bits s ->
        bpFrameOK s t syms = true ->
        let g' := bpRun s (bpSymbolEdges syms) g1 in
        bpBitsRemaining g' = 0 /\
        incomingCode g' = wrap32 (msbFirst (bpPattern s syms)))).
Proof.
  split.
  - intros s t g Hn Hb g1.
    destruct (pf_measure_view s t g) as [V E]. fold g1 in V, E.
    unfold pfCompletes in E. rewrite Hb, andb_false_r in E. cbn [andb] in E.
    unfold pfViewStep, pfView in V. rewrite Hb, orb_true_r in V.
    split; [exact E|]. split; [exact V|]. split.
    + intros edges start ivs Hiv Hidle Hs Hlen Hbs.
      destruct (pf_frame s edges g1 start ivs Hiv Hidle Hs Hlen Hbs)
        as (F1 & F2 & _).
      split; assumption.
    + intros edges ivs Hs Hiv Hlen Hbs. rewrite Hs in V.
      injection V as Vn Va.
      apply (pf_frame_from_start s edges g1 ivs); assumption.
  - intros s pin t g Hn Hl g1.
    assert (g1 = bpStartCheck s pin t (setBpBitsRemaining 0 g)) as Hg1
      by (apply bp_step_restart; right; exact Hl).
    split; [rewrite Hg1, bpStartCheck_events; reflexivity|].
    split; [rewrite Hg1; destruct pin; reflexivity|].
    split; [rewrite Hg1; destruct pin; reflexivity|].
    split.
    + intros t0 syms Hidle Hlen Hok.
      destruct (bp_frame s g1 t0 syms Hidle Hlen Hok) as (F1 & F2 & _).
      split; assumption.
    + intros syms Hpin Hlen Hok. subst pin.
      apply bp_frame_from_start; rewrite ?Hg1; try reflexivity; assumption.
Qed.

Lemma C5_violation_aborts_and_recovers_witness :
  let ev := Events 0 0 0 BUTTON_NONE false in
  let g := State 1000 77 ev 5 0 PtrNull true in
  let g1 := pulseFractionDecode PROTOCOL_SIRC false 4000 g in
  let h := State 0 5 ev 0 7 PtrBitTime false in
  let h1 := biPhaseDecode PROTOCOL_RC5 true 5000 h in
  pfView g1 = (0, 77) /\
  incomingCode
    (pfRun PROTOCOL_SIRC (encodeWidth 10000 600 (2400 :: sircPulses)) g1)
  = 2121 /\
  bpBitsRemaining h1 = 13 /\
  incomingCode
    (bpRun PROTOCOL_RC5 (bpSymbolEdges (risingSymbols 5000 13)) h1)
  = 6143.
Proof.
  intros ev g g1 h h1.
  destruct C5_violation_aborts_and_recovers as [P B].
  destruct (P PROTOCOL_SIRC 4000 g) as (_ & V & R & _);
    [discriminate | vm_compute; reflexivity |].
  destruct (B PROTOCOL_RC5 true 5000 h) as (_ & N & _ & _ & S);
    [discriminate | vm_compute; reflexivity |].
  split; [exact V|]. split; [|split; [exact N|]].
  - destruct (R (encodeWidth 10000 600 (2400 :: sircPulses)) 2400 sircPulses)
      as [_ C].
    + vm_compute. reflexivity.
    + left. vm_compute. reflexivity.
    + vm_compute. reflexivity.
    + reflexivity.
    + repeat constructor.
    + etransitivity; [exact C | vm_compute; reflexivity].
  - destruct (S (risingSymbols 5000 13)) as [_ C].
    + reflexivity.
    + reflexivity.
    + vm_compute. reflexivity.
    + etransitivity; [exact C | vm_compute; reflexivity].
Defined.

(* ------------------------------------------------------------------ *)
(** ** The ISR and the decoders *)

(** The decoders neither read nor write the ISR's pin state. *)
Lemma decode_setIsrPinState p pin t b g :
  decode p pin t (setIsrPinState b g) = setIsrPinState b (decode p pin t g).
Proof.
  destruct g as [r a ev n1 n2 bt ps].
  destruct p as [s|s]; cbn [decode].
  - unfold pulseFractionDecode, pfStartCheck.
    cbn -[wrap32 shl32 sub32 publish Z.sub Z.eqb Z.gtb Z.ltb].
    split_ifs; reflexivity.
  - unfold biPhaseDecode, bpStartCheck.
    cbn -[wrap32 shl32 sub32 publish deref Z.sub Z.add Z.eqb Z.gtb Z.ltb].
    split_ifs; reflexivity.
Qed.

Lemma decodeRun_setIsrPinState p edges : forall b g,
  decodeRun p edges (setIsrPinState b g)
  = setIsrPinState b (decodeRun p edges g).
Proof.
  induction edges as [|e edges IH]; intros b g; [reflexivity|].
  cbn [decodeRun fold_left]. fold (decodeRun p edges).
  rewrite decode_setIsrPinState. apply IH.
Qed.

Lemma isrPinAfter_S b n : isrPinAfter (negb b) n = isrPinAfter b (S n).
Proof.
  unfold isrPinAfter. rewrite Nat.odd_succ, <- Nat.negb_odd.
  destruct (Nat.odd n), b; reflexivity.
Qed.

Lemma setIsrPinState_twice a b g :
  setIsrPinState a (setIsrPinState b g) = setIsrPinState a g.
Proof. reflexivity. Qed.

(** X1: a burst of pin changes served by the ISR is the decoder run over
    the same timestamps with levels that simply alternate, beginning with
    the opposite of the handler's stored pin state (high for the first
    edge after start-up); afterwards the stored pin state has flipped once
    per edge. *)
Theorem X1_isr_alternates_levels p times : forall g,
  run p (map Edge times) g =
  setIsrPinState (isrPinAfter (isrPinState g) (length times))
    (decodeRun p (isrEdges (isrPinState g) times) g).
Proof.
  induction times as [|t times IH]; intros g.
  - cbn. destruct g; reflexivity.
  - change (run p (map Edge (t :: times)) g)
      with (run p (map Edge times) (ISR p t g)).
    change (decodeRun p (isrEdges (isrPinState g) (t :: times)) g)
      with (decodeRun p (isrEdges (negb (isrPinState g)) times)
              (decode p (negb (isrPinState g)) t g)).
    rewrite IH. unfold ISR. rewrite decode_setIsrPinState.
    cbn [isrPinState setIsrPinState length].
    rewrite decodeRun_setIsrPinState, setIsrPinState_twice, isrPinAfter_S.
    reflexivity.
Qed.

(* ------------------------------------------------------------------ *)
(** ** Bounds kept by every session *)

Lemma bitsWithin_zero bits lo : bitsWithin bits lo 0.
Proof. intros k H. rewrite Z.bits_0 in H. discriminate. Qed.

Lemma bitsWithin_weaken bits lo lo' x :
  lo' <= lo -> bitsWithin bits lo x -> bitsWithin bits lo' x.
Proof. intros Hle H k Hk. destruct (H k Hk) as (A & B & C). lia. Qed.

Lemma bitsWithin_nonneg_index bits lo x k :
  bitsWithin bits lo x -> Z.testbit x k = true -> 0 <= k.
Proof.
  intros _ Hk. destruct (Z.lt_ge_cases k 0) as [Hneg|Hpos]; [|exact Hpos].
  rewrite Z.testbit_neg_r in Hk by exact Hneg. discriminate.
Qed.

Lemma bitsWithin_lor_shl32 bits n x :
  n < bits -> bitsWithin bits (n + 1) x ->
  bitsWithin bits n (Z.lor x (shl32 n)).
Proof.
  intros Hn H k Hk.
  assert (0 <= k) as Hk0.
  { destruct (Z.lt_ge_cases k 0) as [Hneg|Hpos]; [|exact Hpos].
    rewrite Z.testbit_neg_r in Hk by exact Hneg. discriminate. }
  rewrite Z.lor_spec, testbit_shl32 in Hk by exact Hk0.
  apply orb_true_iff in Hk as [Hk|Hk].
  - destruct (H k Hk) as (A & B & C). lia.
  - apply andb_true_iff in Hk as [H32 He].
    apply Z.ltb_lt in H32. apply Z.eqb_eq in He. lia.
Qed.

Lemma bitsWithin_add_shl32 bits n x :
  n < bits -> bitsWithin bits (n + 1) x ->
  bitsWithin bits n (wrap32 (x + shl32 n)).
Proof.
  intros Hn H k Hk.
  assert (Z.testbit x n = false) as Hclear.
  { destruct (Z.testbit x n) eqn:E; [|reflexivity].
    destruct (H n E) as (A & _). lia. }
  rewrite (testbit_add_shl32 _ _ _ Hclear) in Hk.
  destruct (k <? 0); [discriminate|].
  apply andb_true_iff in Hk as [H32 Hk]. apply Z.ltb_lt in H32.
  apply orb_true_iff in Hk as [Hk|Hk].
  - destruct (H k Hk) as (A & B & C). lia.
  - apply Z.eqb_eq in Hk. lia.
Qed.

(** A value whose set bits all lie below [bits] and below 32 is a
    [uint32_t] below [2 ^ bits]. *)
Lemma bitsWithin_range bits lo x :
  0 <= bits -> bitsWithin bits lo x -> 0 <= x < 2 ^ bits /\ x < 2 ^ 32.
Proof.
  intros Hb H.
  assert (x = x mod 2 ^ bits) as E1.
  { apply Z.bits_inj'. intros k Hk.
    destruct (Z.lt_ge_cases k bits) as [Hlt|Hge].
    - rewrite Z.mod_pow2_bits_low by lia. reflexivity.
    - rewrite Z.mod_pow2_bits_high by lia.
      destruct (Z.testbit x k) eqn:E; [|reflexivity].
      destruct (H k E) as (_ & B & _). lia. }
  assert (x = x mod 2 ^ 32) as E2.
  { apply Z.bits_inj'. intros k Hk.
    destruct (Z.lt_ge_cases k 32) as [Hlt|Hge].
    - rewrite Z.mod_pow2_bits_low by lia. reflexivity.
    - rewrite Z.mod_pow2_bits_high by lia.
      destruct (Z.testbit x k) eqn:E; [|reflexivity].
      destruct (H k E) as (_ & _ & C). lia. }
  pose proof (Z.mod_pos_bound x (2 ^ bits) ltac:(apply Z.pow_pos_nonneg; lia)).
  pose proof (Z.mod_pos_bound x (2 ^ 32) ltac:(apply Z.pow_pos_nonneg; lia)).
  lia.
Qed.

Lemma bitsWithin_publish bits code t ev :
  bitsWithin bits 0 code ->
  bitsWithin bits 0 (buttonCode ev) ->
  bitsWithin bits 0 (buttonCode (publish code t ev)).
Proof.
  intros Hc He. unfold publish.
  destruct (button_eqb (buttonState ev) BUTTON_NONE); assumption.
Qed.

Lemma sessionInv_initial p : 0 <= protocolBits p -> sessionInv p initialState.
Proof.
  intros Hb. unfold sessionInv.
  split; [destruct p; cbn in *; lia|].
  split; [apply bitsWithin_zero|]. split; [apply bitsWithin_zero|].
  destruct p; [exact I | left; reflexivity].
Qed.

Lemma sessionInv_decode p pin t g :
  sessionInv p g -> sessionInv p (decode p pin t g).
Proof.
  intros (Hn & Ha & Hc & Hp).
  destruct p as [s|s]; cbn [decode protocolBits bitsRemaining] in *.
  - destruct (Bool.eqb pin (PF.distanceMode s)) eqn:E.
    + apply Bool.eqb_prop in E. subst pin.
      destruct (pf_measure_view s t g) as [V Ev]. cbn zeta in V, Ev.
      set (g' := pulseFractionDecode s (PF.distanceMode s) t g) in *.
      unfold pfView, pfViewStep in V.
      assert (0 <= pfBitsRemaining g' <= PF.bits s /\
              bitsWithin (PF.bits s) (pfBitsRemaining g') (incomingCode g'))
        as [Hn' Ha'].
      { destruct ((pfBitsRemaining g =? 0) || negb (pfInBounds s _)) eqn:C.
        - destruct (pfStartOK s _); injection V as -> ->.
          + split; [lia | apply bitsWithin_zero].
          + split; [lia|]. apply (bitsWithin_weaken _ (pfBitsRemaining g));
              [lia | exact Ha].
        - apply orb_false_iff in C as [C _]. apply Z.eqb_neq in C.
          injection V as -> ->. split; [lia|].
          destruct (_ >? _).
          + apply bitsWithin_lor_shl32; [lia|].
            replace (pfBitsRemaining g - 1 + 1) with (pfBitsRemaining g) by lia.
            exact Ha.
          + apply (bitsWithin_weaken _ (pfBitsRemaining g)); [lia | exact Ha]. }
      unfold sessionInv. cbn [protocolBits bitsRemaining].
      split; [exact Hn'|]. split; [exact Ha'|]. split; [|exact I].
      rewrite Ev. destruct (pfCompletes s _ _) eqn:C; [|exact Hc].
      apply bitsWithin_publish; [|exact Hc].
      unfold pfCompletes in C. apply andb_true_iff in C as [C C3].
      apply andb_true_iff in C as [C1 C2].
      apply negb_true_iff in C1. rewrite C1, C2 in V. cbn [orb negb] in V.
      injection V as V1 V2. apply Z.eqb_eq in C3.
      rewrite V1, C3 in Ha'. exact Ha'.
    + rewrite (pf_other_edge s pin t g E).
      destruct (PF.distanceMode s);
        (split; [exact Hn|]; split; [exact Ha|]; split; [exact Hc | exact I]).
  - unfold sessionInv. cbn [protocolBits bitsRemaining].
    destruct (bp_cases s t g) as [H|[H|[[Hz H]|[Hz H]]]].
    + rewrite (bp_step_restart s pin t g (or_introl H)).
      unfold bpStartCheck. destruct pin; cbn.
      * split; [lia|]. split; [apply bitsWithin_zero|].
        split; [exact Hc|]. right. discriminate.
      * split; [lia|]. split; [|split; [exact Hc | left; reflexivity]].
        apply (bitsWithin_weaken _ (bpBitsRemaining g)); [lia | exact Ha].
    + rewrite (bp_step_restart s pin t g (or_intror H)).
      unfold bpStartCheck. destruct pin; cbn.
      * split; [lia|]. split; [apply bitsWithin_zero|].
        split; [exact Hc|]. right. discriminate.
      * split; [lia|]. split; [|split; [exact Hc | left; reflexivity]].
        apply (bitsWithin_weaken _ (bpBitsRemaining g)); [lia | exact Ha].
    + rewrite (bp_step_early s pin t g Hz H).
      split; [exact Hn|]. split; [exact Ha|]. split; [exact Hc | exact Hp].
    + destruct (bp_step_mid s pin t g Hz H) as (_ & N & A & Ev & P & _).
      cbn zeta in N, A, Ev, P.
      set (g' := biPhaseDecode s pin t g) in *.
      set (n := bpBitsRemaining g - 1) in *.
      assert (bitsWithin (BP.bits s) n (incomingCode g')) as Ha'.
      { rewrite A. destruct (_ && _).
        - apply bitsWithin_add_shl32; [unfold n; lia|].
          replace (n + 1) with (bpBitsRemaining g) by (unfold n; lia).
          exact Ha.
        - apply (bitsWithin_weaken _ (bpBitsRemaining g));
            [unfold n; lia | exact Ha]. }
      rewrite N. split; [unfold n; lia|]. split; [exact Ha'|]. split.
      * rewrite Ev. destruct (Z.eqb_spec n 0) as [E|E]; [|exact Hc].
        apply bitsWithin_publish; [|exact Hc]. rewrite E in Ha'. exact Ha'.
      * rewrite P. destruct (Z.eqb_spec n 0) as [E|E]; [left; exact E|].
        right. unfold bpNextPtr. destruct (_ || _); discriminate.
Qed.

Lemma sessionInv_poll p t g : sessionInv p g -> sessionInv p (pollState t g).
Proof.
  intros (Hn & Ha & Hc & Hp). unfold sessionInv.
  assert (bitsWithin (protocolBits p) 0 (buttonCode (remoteEvents (pollState t g))))
    as Hc'.
  { destruct (poll_code_cases t g) as [E|E]; rewrite E;
      [exact Hc | apply bitsWithin_zero]. }
  destruct p; (split; [exact Hn|]; split; [exact Ha|]; split; [exact Hc'|]);
    exact Hp.
Qed.

Lemma sessionInv_step p e g : sessionInv p g -> sessionInv p (step p e g).
Proof.
  intros H. destruct e as [t|t]; cbn [step].
  - unfold ISR. apply sessionInv_decode.
    destruct H as (A & B & C & D). unfold sessionInv.
    destruct p; (split; [exact A|]; split; [exact B|]; split; [exact C|]);
      exact D.
  - apply sessionInv_poll. exact H.
Qed.

Lemma sessionInv_run p tr : forall g, sessionInv p g -> sessionInv p (run p tr g).
Proof.
  induction tr as [|e tr IH]; intros g H; [exact H|].
  cbn [run fold_left]. apply IH, sessionInv_step, H.
Qed.

Lemma bitsWithin_low_clear bits lo x :
  0 <= lo -> bitsWithin bits lo x -> x mod 2 ^ lo = 0.
Proof.
  intros Hlo H. apply Z.bits_inj'. intros k Hk. rewrite Z.bits_0.
  destruct (Z.lt_ge_cases k lo) as [Hlt|Hge].
  - rewrite Z.mod_pow2_bits_low by lia.
    destruct (Z.testbit x k) eqn:E; [|reflexivity].
    destruct (H k E) as (A & _). lia.
  - apply Z.mod_pow2_bits_high. lia.
Qed.

(** X2: in every session from the initial state, for either decoder, the
    bits-remaining counter stays between 0 and the frame length (the
    uint8_t never wraps), the accumulator and the published buttonCode are
    32-bit values below 2^bits, and the positions still to be received are
    clear in the accumulator. *)
Theorem X2_session_bounds p tr :
  0 <= protocolBits p ->
  let g := run p tr initialState in
  0 <= bitsRemaining p g <= protocolBits p /\
  0 <= incomingCode g < 2 ^ protocolBits p /\
  incomingCode g < 2 ^ 32 /\
  0 <= buttonCode (remoteEvents g) < 2 ^ protocolBits p /\
  buttonCode (remoteEvents g) < 2 ^ 32 /\
  incomingCode g mod 2 ^ bitsRemaining p g = 0.
Proof.
  intros Hb g.
  destruct (sessionInv_run p tr initialState (sessionInv_initial p Hb))
    as (Hn & Ha & Hc & _).
  fold g in Hn, Ha, Hc.
  destruct (bitsWithin_range _ _ _ Hb Ha) as [A1 A2].
  destruct (bitsWithin_range _ _ _ Hb Hc) as [C1 C2].
  split; [exact Hn|]. split; [exact A1|]. split; [exact A2|].
  split; [exact C1|]. split; [exact C2|].
  apply (bitsWithin_low_clear (protocolBits p)); [lia | exact Ha].
Qed.

Lemma X2_session_bounds_witness :
  let g := run (PulseFraction PROTOCOL_SIRC) heldSession initialState in
  0 <= buttonCode (remoteEvents g) < 2 ^ 12.
Proof.
  intros g.
  destruct (X2_session_bounds (PulseFraction PROTOCOL_SIRC) heldSession)
    as (_ & _ & _ & C & _); [cbn; lia | exact C].
Defined.

Section BiPhasePointer.
Variable s : BP.t.

Lemma ptrInv_decode pin t g :
  sessionInv (BiPhase s) g -> ptrInv s g ->
  ptrInv s (biPhaseDecode s pin t g).
Proof.
  intros (Hn & _) Hp. cbn [bitsRemaining protocolBits] in Hn.
  unfold ptrInv.
  destruct (bp_cases s t g) as [H|[H|[[Hz H]|[Hz H]]]].
  - rewrite (bp_step_restart s pin t g (or_introl H)).
    unfold bpStartCheck, bpPtrAt. destruct pin; cbn; [right | left; reflexivity].
    rewrite Z.eqb_refl. reflexivity.
  - rewrite (bp_step_restart s pin t g (or_intror H)).
    unfold bpStartCheck, bpPtrAt. destruct pin; cbn; [right | left; reflexivity].
    rewrite Z.eqb_refl. reflexivity.
  - rewrite (bp_step_early s pin t g Hz H). exact Hp.
  - destruct (bp_step_mid s pin t g Hz H) as (_ & N & _ & _ & P & _).
    cbn zeta in N, P. rewrite N, P.
    destruct (Z.eqb_spec (bpBitsRemaining g - 1) 0) as [E|E]; [left; exact E|].
    right. symmetry. apply bpPtrAt_below. lia.
Qed.

Lemma ptrInv_run tr : forall g,
  sessionInv (BiPhase s) g -> ptrInv s g -> ptrInv s (run (BiPhase s) tr g).
Proof.
  induction tr as [|e tr IH]; intros g HI HP; [exact HP|].
  cbn [run fold_left]. apply IH; [apply sessionInv_step; exact HI|].
  destruct e as [t|t]; cbn [step]; [|exact HP].
  unfold ISR. cbn [decode]. apply ptrInv_decode; [|exact HP].
  destruct HI as (A & B & C & D). unfold sessionInv.
  split; [exact A|]. split; [exact B|]. split; [exact C | exact D].
Qed.
End BiPhasePointer.

(** X3: in every bi-phase session from the initial state, while a frame is
    in progress the window pointer [bitTime] is never the null pointer it
    starts as: it points to the start pair while all bits remain, to the
    toggle pair when the bits remaining equal togglePos or togglePos + 1,
    and to the ordinary pair otherwise. *)
Theorem X3_window_follows_position s tr :
  0 <= BP.bits s ->
  let g := run (BiPhase s) tr initialState in
  bpBitsRemaining g = 0 \/
  (bpBitTime g <> PtrNull /\
   bpBitTime g =
     if bpBitsRemaining g =? BP.bits s then PtrStartTime
     else if (bpBitsRemaining g =? BP.togglePos s + 1)
             || (bpBitsRemaining g =? BP.togglePos s)
          then PtrToggleTime else PtrBitTime).
Proof.
  intros Hb g.
  destruct (ptrInv_run s tr initialState
              (sessionInv_initial (BiPhase s) Hb) (or_introl eq_refl))
    as [H|H]; [left; exact H|].
  right. fold g in H. split; [|exact H].
  rewrite H. unfold bpPtrAt, bpNextPtr.
  destruct (_ =? BP.bits s); [discriminate|].
  destruct (_ || _); discriminate.
Qed.

Lemma X3_window_follows_position_witness :
  let g := run (BiPhase PROTOCOL_RC6_MODE0)
               (edgeEvents [(true, 1000); (false, 1444); (true, 4996)])
               initialState in
  bpBitsRemaining g = 20 /\ bpBitTime g = PtrBitTime.
Proof.
  intros g.
  destruct (X3_window_follows_position PROTOCOL_RC6_MODE0
              (edgeEvents [(true, 1000); (false, 1444); (true, 4996)]))
    as [H|[_ H]]; [cbn; lia | vm_compute in H; discriminate |].
  split; [vm_compute; reflexivity | exact H].
Defined.

(** X4: the bi-phase round trip.  From an idle decoder, a rising start
    edge followed by the well-timed bits of a frame leaves no bit
    remaining and the accumulator equal to the most-significant-bit-first
    assembly of the mid-bit levels compared with [aceRising], with the
    toggle position left out (modulo 2^32; exactly for frames of at most
    32 bits); the code is published into an Event Record in state NONE
    and the toggle flag is inverted. *)
Theorem X4_bi_phase_round_trip s g t0 syms :
  bpBitsRemaining g = 0 ->
  Z.of_nat (length syms) = BP.bits s ->
  bpFrameOK s t0 syms = true ->
  let g' := bpRun s ((true, t0) :: bpSymbolEdges syms) g in
  let code := msbFirst (bpPattern s syms) in
  bpBitsRemaining g' = 0 /\
  incomingCode g' = wrap32 code /\
  (BP.bits s <= 32 -> incomingCode g' = code) /\
  (0 < BP.bits s -> buttonState (remoteEvents g) = BUTTON_NONE ->
   buttonCode (remoteEvents g') = incomingCode g' /\
   toggleState (remoteEvents g') = negb (toggleState (remoteEvents g))).
Proof.
  intros Hidle Hlen Hok g' code.
  destruct (bp_frame s g t0 syms (or_introl Hidle) Hlen Hok) as (F1 & F2 & F3).
  fold g' code in F1, F2, F3.
  split; [exact F1|]. split; [exact F2|]. split.
  - intros H32. rewrite F2. apply wrap32_small.
    pose proof (msbFirst_bounds (bpPattern s syms)) as Hc. fold code in Hc.
    rewrite length_bpPattern, Hlen in Hc. unfold u32.
    assert (2 ^ BP.bits s <= 2 ^ 32) by (apply Z.pow_le_mono_r; lia). lia.
  - intros Hpos Hnone. destruct F3 as [t Ht].
    + destruct syms; [cbn in Hlen; lia | discriminate].
    + rewrite Ht. unfold publish. rewrite Hnone. cbn. split; reflexivity.
Qed.

Lemma X4_bi_phase_round_trip_witness :
  let g' := bpRun PROTOCOL_RC5
              ((true, 5000) :: bpSymbolEdges (risingSymbols 5000 13))
              initialState in
  incomingCode g' = 6143 /\ buttonCode (remoteEvents g') = 6143.
Proof.
  intros g'.
  destruct (X4_bi_phase_round_trip PROTOCOL_RC5 initialState 5000
              (risingSymbols 5000 13)) as (_ & _ & C & P);
    [reflexivity | reflexivity | vm_compute; reflexivity |].
  cbn zeta in C, P. fold g' in C, P.
  destruct P as [P _]; [reflexivity | reflexivity |].
  rewrite P, C; [split; vm_compute; reflexivity | cbn; lia].
Defined.

(* ------------------------------------------------------------------ *)
(** ** Resynchronisation, holding, polling *)

Lemma shipped_windows_disjoint :
  Forall pfWindowsDisjoint
    [PROTOCOL_NEC; PROTOCOL_JVC; PROTOCOL_RCA; PROTOCOL_SAMSUNG; PROTOCOL_SIRC].
Proof.
  repeat constructor; intros m H; unfold pfStartOK, pfInBounds in *; cbn in *;
    rewrite orb_false_r in H; apply andb_true_iff in H as [H1 H2];
    apply Z.ltb_lt in H1; apply Z.gtb_lt in H2;
    apply andb_false_iff; right; apply Z.ltb_ge; lia.
Qed.

(** X5: when no start interval of a pulse-fraction protocol is also a bit
    interval, a well-formed frame is decoded to its code from any decoder
    state whatever, idle or in the middle of a frame: the start interval
    aborts what was in progress.  This holds for the shipped protocols
    NEC, JVC, RCA, Samsung and SIRC (not for Sharp, which has start
    checking disabled). *)
Theorem X5_resynchronises_from_any_state s edges g start ivs :
  pfWindowsDisjoint s ->
  pfIntervals s (referenceTime g) edges = start :: ivs ->
  pfStartOK s start = true ->
  Z.of_nat (length ivs) = PF.bits s ->
  Forall (fun m => pfInBounds s m = true) ivs ->
  (pfBitsRemaining (pfRun s edges g) = 0 /\
   incomingCode (pfRun s edges g) = wrap32 (msbFirst (pfPattern s ivs))) /\
  Forall pfWindowsDisjoint
    [PROTOCOL_NEC; PROTOCOL_JVC; PROTOCOL_RCA; PROTOCOL_SAMSUNG; PROTOCOL_SIRC]
  /\ ~ pfWindowsDisjoint PROTOCOL_SHARP.
Proof.
  intros Hd Hiv Hs Hlen Hb. split; [|split].
  - destruct (pf_frame s edges g start ivs Hiv (or_intror (Hd start Hs))
                Hs Hlen Hb) as (F1 & F2 & _).
    split; assumption.
  - exact shipped_windows_disjoint.
  - intros H. specialize (H 1000 eq_refl). discriminate.
Qed.

Lemma X5_resynchronises_from_any_state_witness :
  let g := State 700 4095 (Events 0 0 0 BUTTON_NONE false) 7 0 PtrNull true in
  incomingCode (pfRun PROTOCOL_SIRC sircEdges g) = 2121.
Proof.
  intros g.
  destruct (X5_resynchronises_from_any_state PROTOCOL_SIRC sircEdges g 2400
              sircPulses) as [[_ C] _].
  - apply (Forall_inv (Forall_inv_tail (Forall_inv_tail (Forall_inv_tail
             (Forall_inv_tail shipped_windows_disjoint))))).
  - vm_compute. reflexivity.
  - reflexivity.
  - reflexivity.
  - repeat constructor.
  - rewrite C. vm_compute. reflexivity.
Defined.

(** While the state is HELD, an edge leaves the Event Record alone. *)
Lemma ISR_held p t g :
  buttonState (remoteEvents g) <> BUTTON_NONE ->
  remoteEvents (ISR p t g) = remoteEvents g.
Proof.
  intros H. rewrite ISR_events.
  destruct (completesFrame p (Edge t) g); [|reflexivity].
  apply publish_active. exact H.
Qed.

(** X6: a held button stays held.  From state HELD, whatever edges arrive
    (frames that complete, partial frames, noise) and however often the
    application polls, as long as every poll comes within the repeat
    interval of the reference time it finds, the state remains HELD and
    buttonCode, pressTime and toggleState keep their values. *)
Theorem X6_held_is_stable p tr : forall g,
  buttonState (remoteEvents g) = BUTTON_HELD ->
  pollsInTime p tr g = true ->
  let ev := remoteEvents g in
  let ev' := remoteEvents (run p tr g) in
  buttonState ev' = BUTTON_HELD /\
  buttonCode ev' = buttonCode ev /\
  pressTime ev' = pressTime ev /\
  toggleState ev' = toggleState ev.
Proof.
  induction tr as [|e tr IH]; intros g Hs Ht; [repeat split; exact Hs|].
  cbn [pollsInTime] in Ht. apply andb_true_iff in Ht as [Ht1 Ht2].
  cbn [run fold_left]. fold (run p tr).
  destruct e as [t|t]; cbn [step] in *.
  - assert (remoteEvents (ISR p t g) = remoteEvents g) as E
      by (apply ISR_held; rewrite Hs; discriminate).
    destruct (IH (ISR p t g)) as (A & B & C & D);
      [rewrite E; exact Hs | exact Ht2 |].
    cbn zeta in *. rewrite E in B, C, D. repeat split; assumption.
  - destruct (poll_held t g Hs) as [A1 B1].
    apply negb_true_iff in Ht1. rewrite Ht1 in A1.
    destruct (IH (pollState t g) A1 Ht2) as (A & B & C & D).
    cbn zeta in *. rewrite B1 in B. rewrite poll_pressTime in C.
    rewrite poll_toggleState in D. repeat split; assumption.
Qed.

Lemma X6_held_is_stable_witness :
  let p := PulseFraction PROTOCOL_SIRC in
  let g := run p (heldSession ++ [Poll 120000]) initialState in
  let tr := edgeEvents (encodeWidth 136000 600 (2400 :: sircPulses))
            ++ [Poll 200000] in
  buttonState (remoteEvents g) = BUTTON_HELD /\
  buttonState (remoteEvents (run p tr g)) = BUTTON_HELD /\
  buttonCode (remoteEvents (run p tr g)) = 2121.
Proof.
  intros p g tr.
  destruct (X6_held_is_stable p tr g) as (A & B & _);
    [vm_compute; reflexivity | vm_compute; reflexivity |].
  split; [vm_compute; reflexivity|]. split; [exact A|].
  cbn zeta in B. rewrite B. vm_compute. reflexivity.
Defined.

Lemma poll_budget t g :
  (b2n (button_eqb BUTTON_PRESSED (pollResult t g))
   + pressesLeft (pollState t g) <= pressesLeft g)%nat /\
  (b2n (button_eqb BUTTON_RELEASED (pollResult t g))
   + releasesLeft (pollState t g) <= releasesLeft g)%nat.
Proof.
  unfold pressesLeft, releasesLeft, pending.
  poll_cases g; cbn;
    repeat match goal with H : _ = _ |- _ => rewrite ?H; clear H end;
    cbn; split; lia.
Qed.

(** X7: polling is idempotent.  With no edge arriving, however often and
    whenever the application polls and whatever the state it starts from,
    at most one poll returns PRESSED and at most one returns RELEASED. *)
Theorem X7_polls_report_each_transition_once times : forall g,
  (countResult BUTTON_PRESSED (pollResults times g) <= 1)%nat /\
  (countResult BUTTON_RELEASED (pollResults times g) <= 1)%nat.
Proof.
  assert (forall g,
            (countResult BUTTON_PRESSED (pollResults times g)
             <= pressesLeft g)%nat /\
            (countResult BUTTON_RELEASED (pollResults times g)
             <= releasesLeft g)%nat) as H.
  { induction times as [|t times IH]; intros g; [cbn; split; lia|].
    destruct (IH (pollState t g)) as [I1 I2].
    destruct (poll_budget t g) as [B1 B2].
    unfold countResult in *. cbn [pollResults filter].
    split.
    - destruct (button_eqb BUTTON_PRESSED (pollResult t g)); cbn in *; lia.
    - destruct (button_eqb BUTTON_RELEASED (pollResult t g)); cbn in *; lia. }
  intros g. destruct (H g) as [H1 H2]. split.
  - unfold pressesLeft in H1. destruct (pending g); cbn in H1; lia.
  - unfold releasesLeft in H2.
    destruct (buttonState (remoteEvents g)); try lia.
    destruct (negb _); cbn in H2; lia.
Qed.

(** X8: in distance mode the decoder acts on the edges of one level only:
    a run over any edge sequence ends in the same state as the run over
    its high edges alone (the low edges do not even move the reference
    time). *)
Theorem X8_distance_mode_ignores_low_edges s edges : forall g,
  PF.distanceMode s = true ->
  pfRun s edges g = pfRun s (filter (fun e => fst e) edges) g.
Proof.
  intros g Hd. revert g.
  induction edges as [|[p t] edges IH]; intros g; [reflexivity|].
  cbn [filter fst]. destruct p.
  - cbn [pfRun fold_left fst snd]. apply IH.
  - cbn [pfRun fold_left fst snd].
    rewrite (pf_other_edge s false t g) by (rewrite Hd; reflexivity).
    rewrite Hd. apply IH.
Qed.

Lemma X8_distance_mode_ignores_low_edges_witness :
  pfRun scenarioSettings scenarioEdges initialState
  = pfRun scenarioSettings
      [(true, 800); (true, 1600); (true, 1900); (true, 2700); (true, 3600);
       (true, 4100); (true, 5700)] initialState.
Proof.
  apply (X8_distance_mode_ignores_low_edges scenarioSettings scenarioEdges
           initialState).
  reflexivity.
Defined.

(** With a frame length of 0 no call completes a frame. *)
Lemma zero_bits_never_completes p e g :
  protocolBits p = 0 -> sessionInv p g -> completesFrame p e g = false.
Proof.
  intros Hz (Hn & _). rewrite Hz in Hn.
  destruct e as [t|t]; [|reflexivity].
  destruct p as [s|s]; cbn [completesFrame completes bitsRemaining] in *.
  - unfold pfCompletes.
    replace (pfBitsRemaining g =? 0) with true
      by (symmetry; apply Z.eqb_eq; lia).
    cbn [negb andb]. apply andb_false_r.
  - replace (bpBitsRemaining g =? 0) with true
      by (symmetry; apply Z.eqb_eq; lia).
    reflexivity.
Qed.

(** X9: a protocol descriptor with 0 bits never produces anything: in
    every session from the initial state no frame is ever published, so
    buttonCode stays 0, pressTime 0, toggleState false and the state
    NONE, and every poll returns NONE. *)
Theorem X9_zero_bit_protocol_is_silent p tr :
  protocolBits p = 0 ->
  let ev := remoteEvents (run p tr initialState) in
  buttonState ev = BUTTON_NONE /\ buttonCode ev = 0 /\
  pressTime ev = 0 /\ toggleState ev = false.
Proof.
  intros Hz.
  assert (forall g,
            sessionInv p g ->
            buttonState (remoteEvents g) = BUTTON_NONE /\
            buttonCode (remoteEvents g) = 0 /\
            pressTime (remoteEvents g) = 0 /\
            toggleState (remoteEvents g) = false ->
            let ev := remoteEvents (run p tr g) in
            buttonState ev = BUTTON_NONE /\ buttonCode ev = 0 /\
            pressTime ev = 0 /\ toggleState ev = false) as H.
  { induction tr as [|e tr IH]; intros g HI HE; [exact HE|].
    cbn [run fold_left]. fold (run p tr).
    apply IH; [apply sessionInv_step; exact HI|].
    destruct HE as (A & B & C & D).
    destruct e as [t|t]; cbn [step].
    - rewrite ISR_events, (zero_bits_never_completes p (Edge t) g Hz HI).
      repeat split; assumption.
    - destruct (poll_none t g A) as [A' B']. rewrite B in A', B'.
      rewrite poll_pressTime, poll_toggleState.
      repeat split; assumption. }
  apply H; [apply sessionInv_initial; lia | repeat split].
Qed.

Lemma X9_zero_bit_protocol_is_silent_witness :
  buttonCode
    (remoteEvents
       (run (PulseFraction (PF.Build 0 true 0 0 400 700 1200))
            (edgeEvents scenarioEdges ++ [Poll 9000]) initialState)) = 0.
Proof.
  apply (X9_zero_bit_protocol_is_silent
           (PulseFraction (PF.Build 0 true 0 0 400 700 1200))
           (edgeEvents scenarioEdges ++ [Poll 9000])).
  reflexivity.
Defined.

(** X10: what a decoder call may write.  Whatever the edge, a call of the
    active decoder never changes buttonState or curTime; when the state is
    not NONE it changes no field of the Event Record at all; and it leaves
    the other decoder's bits-remaining counter and the ISR's pin state
    alone. *)
Theorem X10_decoder_write_set p pin t g :
  let g' := decode p pin t g in
  buttonState (remoteEvents g') = buttonState (remoteEvents g) /\
  curTime (remoteEvents g') = curTime (remoteEvents g) /\
  (buttonState (remoteEvents g) = BUTTON_NONE \/
   remoteEvents g' = remoteEvents g) /\
  isrPinState g' = isrPinState g /\
  match p with
  | PulseFraction _ =>
      bpBitsRemaining g' = bpBitsRemaining g /\ bpBitTime g' = bpBitTime g
  | BiPhase _ => pfBitsRemaining g' = pfBitsRemaining g
  end.
Proof.
  intros g'.
  pose proof (decode_events p pin t g) as E. fold g' in E.
  assert (isrPinState g' = isrPinState g) as HP.
  { pose proof (decode_setIsrPinState p pin t (isrPinState g) g) as H.
    replace (setIsrPinState (isrPinState g) g) with g in H
      by (destruct g; reflexivity).
    fold g' in H. rewrite H. reflexivity. }
  split; [|split; [|split; [|split; [exact HP|]]]].
  - rewrite E. destruct (completes p pin t g);
      [apply publish_buttonState | reflexivity].
  - rewrite E. destruct (completes p pin t g); [|reflexivity].
    unfold publish. destruct (button_eqb _ _); reflexivity.
  - destruct (buttonState (remoteEvents g)) eqn:S; [left; reflexivity| | |];
      right; rewrite E; destruct (completes p pin t g); try reflexivity;
      apply publish_active; rewrite S; discriminate.
  - destruct p as [s|s]; subst g'; cbn [decode].
    + destruct g as [r a ev n1 n2 bt ps].
      unfold pulseFractionDecode, pfStartCheck.
      cbn -[wrap32 shl32 sub32 publish Z.sub Z.eqb Z.gtb Z.ltb].
      split_ifs; split; reflexivity.
    + destruct g as [r a ev n1 n2 bt ps].
      unfold biPhaseDecode, bpStartCheck.
      cbn -[wrap32 shl32 sub32 publish deref Z.sub Z.add Z.eqb Z.gtb Z.ltb].
      split_ifs; reflexivity.
Qed.

(** The snapshot a poll returns, state by state. *)
Lemma snapshot_is_record t g :
  fst (lirrGetEvents t g) = remoteEvents (pollState t g) /\
  referenceTime (pollState t g) = referenceTime g.
Proof. split; reflexivity. Qed.

Lemma snapshot_cases t g :
  let ev := remoteEvents g in
  remoteEvents (pollState t g) =
  match buttonState ev with
  | BUTTON_NONE =>
      Events (pressTime ev) t (buttonCode ev)
             (if buttonCode ev =? 0 then BUTTON_NONE else BUTTON_PRESSED)
             (toggleState ev)
  | BUTTON_PRESSED =>
      Events (pressTime ev) t (buttonCode ev) BUTTON_HELD (toggleState ev)
  | BUTTON_HELD =>
      Events (pressTime ev) t (buttonCode ev)
             (if sub32 t (referenceTime g) >? repeatInt
              then BUTTON_RELEASED else BUTTON_HELD)
             (toggleState ev)
  | BUTTON_RELEASED =>
      Events (pressTime ev) t 0 BUTTON_NONE (toggleState ev)
  end.
Proof.
  destruct g as [r a [pt ct bc [] ts] n1 n2 bt ps];
    unfold pollState, lirrGetEvents, fetchCode;
    cbn [fst snd remoteEvents setRemoteEvents referenceTime buttonState
         buttonCode pressTime curTime toggleState].
  - destruct (bc =? 0); reflexivity.
  - reflexivity.
  - destruct (_ >? _); reflexivity.
  - reflexivity.
Qed.

(** X11: the snapshots of an isolated press.  After a nonzero code has
    been published into a NONE Event Record, with no further edge and the
    third poll later than the repeat interval after the reference time,
    the polls return the code, the publication's pressTime and its toggle
    value with the states PRESSED, HELD and RELEASED in turn, each with
    the poll's own time as curTime; only the fourth snapshot has the code
    cleared to 0, in state NONE. *)
Theorem X11_snapshots_carry_the_code g t1 t2 t3 t4 :
  buttonState (remoteEvents g) = BUTTON_NONE ->
  buttonCode (remoteEvents g) <> 0 ->
  sub32 t3 (referenceTime g) > repeatInt ->
  let ev := remoteEvents g in
  pollSnapshots [t1; t2; t3; t4] g =
  [Events (pressTime ev) t1 (buttonCode ev) BUTTON_PRESSED (toggleState ev);
   Events (pressTime ev) t2 (buttonCode ev) BUTTON_HELD (toggleState ev);
   Events (pressTime ev) t3 (buttonCode ev) BUTTON_RELEASED (toggleState ev);
   Events (pressTime ev) t4 0 BUTTON_NONE (toggleState ev)].
Proof.
  intros Hs Hc Hgap ev. subst ev. set (ev := remoteEvents g) in *.
  apply Z.eqb_neq in Hc. apply Z.gt_lt, Z.gtb_lt in Hgap.
  cbn [pollSnapshots].
  set (g1 := pollState t1 g). set (g2 := pollState t2 g1).
  set (g3 := pollState t3 g2).
  assert (remoteEvents g1 =
          Events (pressTime ev) t1 (buttonCode ev) BUTTON_PRESSED
                 (toggleState ev)) as E1.
  { unfold g1. rewrite snapshot_cases. cbn zeta. fold ev.
    rewrite Hs, Hc. reflexivity. }
  assert (remoteEvents g2 =
          Events (pressTime ev) t2 (buttonCode ev) BUTTON_HELD
                 (toggleState ev)) as E2.
  { unfold g2. rewrite snapshot_cases. cbn zeta. rewrite E1. reflexivity. }
  assert (remoteEvents g3 =
          Events (pressTime ev) t3 (buttonCode ev) BUTTON_RELEASED
                 (toggleState ev)) as E3.
  { unfold g3. rewrite snapshot_cases. cbn zeta. rewrite E2.
    cbn [buttonState pressTime buttonCode toggleState].
    replace (referenceTime g2) with (referenceTime g) by reflexivity.
    rewrite Hgap. reflexivity. }
  rewrite !(proj1 (snapshot_is_record _ _)).
  fold g1 g2 g3. rewrite E1, E2, E3.
  rewrite snapshot_cases. cbn zeta. rewrite E3. reflexivity.
Qed.

Lemma X11_snapshots_carry_the_code_witness :
  map buttonCode (pollSnapshots latePolls afterSircFrame)
  = [2121; 2121; 2121; 0].
Proof.
  unfold latePolls.
  rewrite (X11_snapshots_carry_the_code afterSircFrame
             200000 300000 400000 500000).
  - vm_compute. reflexivity.
  - vm_compute. reflexivity.
  - vm_compute. discriminate.
  - vm_compute. reflexivity.
Defined.

(* ------------------------------------------------------------------ *)
(** ** The example sketch *)

Lemma loop_state now sh g : snd (snd (loop now (sh, g))) = pollState now g.
Proof.
  unfold loop. change (snd (lirrGetEvents now g)) with (pollState now g).
  destruct (buttonState (fst (lirrGetEvents now g))); [reflexivity | reflexivity | | reflexivity].
  destruct sh; reflexivity.
Qed.

Lemma loop_unfold now sh g :
  loop now (sh, g) =
  let ev := remoteEvents (pollState now g) in
  match buttonState ev with
  | BUTTON_PRESSED =>
      ([Pressed (buttonCode ev); Toggle (toggleState ev)], (sh, pollState now g))
  | BUTTON_HELD =>
      if sh then ([Held (buttonCode ev)], (false, pollState now g))
      else ([], (sh, pollState now g))
  | BUTTON_RELEASED => ([Released (buttonCode ev)], (true, pollState now g))
  | BUTTON_NONE => ([], (sh, pollState now g))
  end.
Proof. reflexivity. Qed.

(** Passes while the button stays held, after "Held" has been written,
    write nothing. *)
Lemma loops_held_quiet holds : forall g,
  buttonState (remoteEvents g) = BUTTON_HELD ->
  Forall (fun t => sub32 t (referenceTime g) <= repeatInt) holds ->
  exists g',
    loops holds (false, g) = ([], (false, g')) /\
    buttonState (remoteEvents g') = BUTTON_HELD /\
    buttonCode (remoteEvents g') = buttonCode (remoteEvents g) /\
    referenceTime g' = referenceTime g.
Proof.
  induction holds as [|t holds IH]; intros g Hs Ht.
  - exists g. repeat split. exact Hs.
  - pose proof (Forall_inv Ht) as H1. pose proof (Forall_inv_tail Ht) as H2.
    cbn beta in H1.
    destruct (poll_held t g Hs) as [A B].
    replace (sub32 t (referenceTime g) >? repeatInt) with false in A
      by (symmetry; rewrite Z.gtb_ltb; apply Z.ltb_ge; exact H1).
    destruct (IH (pollState t g) A H2) as (g' & L & S' & C' & R').
    exists g'. cbn [loops]. rewrite loop_unfold. cbn zeta. rewrite A, L.
    repeat split; [exact S' | rewrite C'; exact B | rewrite R'; reflexivity].
Qed.

(** Passes with nothing pending write nothing and keep [showHeld]. *)
Lemma loops_idle_quiet rest : forall sh g,
  buttonState (remoteEvents g) = BUTTON_NONE ->
  buttonCode (remoteEvents g) = 0 ->
  fst (loops rest (sh, g)) = [] /\ fst (snd (loops rest (sh, g))) = sh.
Proof.
  induction rest as [|t rest IH]; intros sh g Hs Hc; [split; reflexivity|].
  destruct (poll_none t g Hs) as [A B]. rewrite Hc in B.
  rewrite Hc, Z.eqb_refl in A.
  cbn [loops]. rewrite loop_unfold. cbn zeta. rewrite A.
  destruct (IH sh (pollState t g) A B) as [I1 I2].
  destruct (loops rest (sh, pollState t g)) as [out st]. cbn in *.
  split; assumption.
Qed.

(** After the pass that reports the release, nothing more is written. *)
Lemma poll_released_then_idle rest g :
  buttonState (remoteEvents g) = BUTTON_RELEASED ->
  fst (loops rest (true, g)) = [] /\ fst (snd (loops rest (true, g))) = true.
Proof.
  intros Hs. destruct rest as [|t rest]; [split; reflexivity|].
  destruct (poll_released t g Hs) as [A B].
  cbn [loops]. rewrite loop_unfold. cbn zeta. rewrite A.
  destruct (loops_idle_quiet rest true (pollState t g) A B) as [I1 I2].
  destruct (loops rest (true, pollState t g)) as [out st]. cbn in *.
  split; assumption.
Qed.

(** X12: the example sketch reports an isolated press once.  After a
    nonzero code [c] has been published into a NONE Event Record, with no
    further edge, the passes of [loop] write exactly "Pressed: c",
    "Toggle: <toggleState>", "Held: c" (once, however many passes find
    the button still held) and, with the first pass later than the repeat
    interval after the reference time, "Released: c"; later passes write
    nothing, and [showHeld] is true again at the end. *)
Theorem X12_sketch_reports_a_press_once g t1 t2 holds tl rest :
  buttonState (remoteEvents g) = BUTTON_NONE ->
  buttonCode (remoteEvents g) <> 0 ->
  Forall (fun t => sub32 t (referenceTime g) <= repeatInt) holds ->
  sub32 tl (referenceTime g) > repeatInt ->
  let c := buttonCode (remoteEvents g) in
  let r := loops (t1 :: t2 :: holds ++ tl :: rest) (true, g) in
  fst r = [Pressed c; Toggle (toggleState (remoteEvents g)); Held c; Released c]
  /\ fst (snd r) = true.
Proof.
  intros Hs Hc Hh Hl c r. subst r.
  apply Z.eqb_neq in Hc. apply Z.gt_lt, Z.gtb_lt in Hl.
  destruct (poll_none t1 g Hs) as [A1 B1]. rewrite Hc in A1.
  set (g1 := pollState t1 g) in *.
  destruct (poll_pressed t2 g1 A1) as [A2 B2].
  set (g2 := pollState t2 g1) in *.
  destruct (loops_held_quiet holds g2 A2 Hh) as (g3 & L3 & S3 & C3 & R3).
  destruct (poll_held tl g3 S3) as [A4 B4].
  rewrite R3 in A4.
  replace (referenceTime g2) with (referenceTime g) in A4 by reflexivity.
  rewrite Hl in A4.
  set (g4 := pollState tl g3) in *.
  assert (forall l1 l2 st,
            loops (l1 ++ l2) st =
            (fst (loops l1 st) ++ fst (loops l2 (snd (loops l1 st))),
             snd (loops l2 (snd (loops l1 st))))) as Happ.
  { induction l1 as [|x l1 IHl]; intros l2 st.
    - cbn. destruct (loops l2 st). reflexivity.
    - cbn [app loops]. destruct (loop x st) as [o st1]. rewrite IHl.
      destruct (loops l1 st1) as [o1 st2]. cbn [fst snd].
      destruct (loops l2 st2) as [o2 st3]. cbn [fst snd].
      rewrite app_assoc. reflexivity. }
  cbn [loops]. rewrite loop_unfold. cbn zeta. fold g1. rewrite A1.
  rewrite loop_unfold. cbn zeta. fold g2. rewrite A2.
  rewrite Happ, L3. cbn [fst snd app].
  cbn [loops]. rewrite loop_unfold. cbn zeta. fold g4. rewrite A4.
  destruct (poll_released_then_idle rest g4 A4) as [Q1 Q2].
  destruct (loops rest (true, g4)) as [o st]. cbn [fst snd] in *.
  subst o. cbn [app fst snd].
  replace (toggleState (remoteEvents g1)) with (toggleState (remoteEvents g))
    by (unfold g1; symmetry; apply poll_toggleState).
  replace (buttonCode (remoteEvents g1)) with c by (symmetry; exact B1).
  replace (buttonCode (remoteEvents g2)) with c
    by (symmetry; rewrite B2; exact B1).
  replace (buttonCode (remoteEvents g4)) with c
    by (symmetry; rewrite B4, C3, B2; exact B1).
  split; [reflexivity | exact Q2].
Qed.

Lemma X12_sketch_reports_a_press_once_witness :
  fst (loops [30000; 50000; 70000; 90000; 200000; 300000] (true, afterSircFrame))
  = [Pressed 2121; Toggle true; Held 2121; Released 2121].
Proof.
  destruct (X12_sketch_reports_a_press_once afterSircFrame 30000 50000
              [70000; 90000] 200000 [300000]) as [A _].
  - vm_compute. reflexivity.
  - vm_compute. discriminate.
  - repeat constructor; vm_compute; discriminate.
  - vm_compute. reflexivity.
  - etransitivity; [exact A | vm_compute; reflexivity].
Defined.
